(** * Metropolis single-spin-flip simulation of the Neel notebook

    A shallow embedding of the code cell of [Notebooks2018/Neel.ipynb] that
    defines [deltaE], initialises [spins], [M] and [MS], and runs the
    Monte-Carlo loop.

    Modelling choices.
    - A numpy integer array is a list of rows of [Z]; its entries are int64,
      so every arithmetic operation on entries is followed by [wrap64].
      Index arithmetic ([i + 1], [i - 1]) is on [Z]: an index is below the
      number of rows of an array in memory and cannot reach 2^63.
    - A float64 is an exact rational, or one of the IEEE special values
      that numpy produces instead of raising (division by zero, mean of an
      empty array).  Rounding is not modelled: a statement about a float
      names the expression the code evaluates, or is about the integers,
      the order or the sign behind it.
    - A Python exception is the [Raise] alternative of [result].
    - [numpy.random] is an interface ([RandomState]) threaded through the
      program as explicit state; [numpy.exp] on finite arguments is a
      parameter of the development.
    - [live_plot] only reads [spins], [M] and [MS] and is left out. *)

From Stdlib Require Import ZArith QArith Qfield List Bool Lia Lqa.
Import ListNotations.

Module Neel.

Open Scope Z_scope.

(** ** Exceptions *)

Inductive exn : Set := IndexError | ValueError.

Inductive result (A : Type) : Type :=
| Ok (a : A)
| Raise (e : exn).

Arguments Ok {A} a.
Arguments Raise {A} e.

Definition bind {A B : Type} (r : result A) (k : A -> result B) : result B :=
  match r with
  | Ok a => k a
  | Raise e => Raise e
  end.

Notation "x <- r ;; k" := (bind r (fun x => k))
  (at level 100, r at next level, right associativity).
Notation "' pat <- r ;; k" := (bind r (fun x => let 'pat := x in k))
  (at level 100, pat pattern, r at next level, right associativity).

(** ** int64 entries *)

Definition wrap64 (z : Z) : Z := (z + 2 ^ 63) mod 2 ^ 64 - 2 ^ 63.

Definition i64_add (a b : Z) : Z := wrap64 (a + b).
Definition i64_mul (a b : Z) : Z := wrap64 (a * b).
Definition i64_neg (a : Z) : Z := wrap64 (- a).

(** ** float64 values *)

Inductive float : Type :=
| Finite (q : Q)
| PosInf
| NegInf
| NaN.

Definition Qltb (x y : Q) : bool := negb (Qle_bool y x).

(** [x / y] on numpy floats: a zero divisor gives an infinity or NaN (with
    a warning), never an exception. *)
Definition true_divide (x y : Q) : float :=
  if Qeq_bool y 0 then
    if Qltb 0 x then PosInf else if Qltb x 0 then NegInf else NaN
  else Finite (x / y).

Definition float_neg (x : float) : float :=
  match x with
  | Finite q => Finite (- q)
  | PosInf => NegInf
  | NegInf => PosInf
  | NaN => NaN
  end.

(** [u < x] for a finite [u]; every comparison with NaN is false. *)
Definition float_lt (u : Q) (x : float) : bool :=
  match x with
  | Finite q => Qltb u q
  | PosInf => true
  | NegInf => false
  | NaN => false
  end.

(** Equality of floats up to the representation of the rational. *)
Definition float_eq (x y : float) : Prop :=
  match x, y with
  | Finite a, Finite b => (a == b)%Q
  | PosInf, PosInf => True
  | NegInf, NegInf => True
  | NaN, NaN => True
  | _, _ => False
  end.

(** ** Indexing *)

(** An integer index into an axis of length [len]: negative indices count
    from the end, anything outside [-len, len) raises IndexError. *)
Definition index (len i : Z) : result nat :=
  if (0 <=? i) && (i <? len) then Ok (Z.to_nat i)
  else if (- len <=? i) && (i <? 0) then Ok (Z.to_nat (i + len))
  else Raise IndexError.

Fixpoint list_set {A : Type} (l : list A) (k : nat) (x : A) : list A :=
  match l, k with
  | [], _ => []
  | _ :: t, O => x :: t
  | y :: t, S k' => y :: list_set t k' x
  end.

Definition getitem {A : Type} (l : list A) (i : Z) : result A :=
  k <- index (Z.of_nat (length l)) i ;;
  match nth_error l k with
  | Some x => Ok x
  | None => Raise IndexError
  end.

Definition setitem {A : Type} (l : list A) (i : Z) (x : A) : result (list A) :=
  k <- index (Z.of_nat (length l)) i ;;
  Ok (list_set l k x).

Definition lattice : Type := list (list Z).

(** [S[i, j]] *)
Definition getitem2 (S : lattice) (i j : Z) : result Z :=
  row <- getitem S i ;;
  getitem row j.

(** [S[i, j] = v] *)
Definition setitem2 (S : lattice) (i j : Z) (v : Z) : result lattice :=
  row <- getitem S i ;;
  row' <- setitem row j v ;;
  setitem S i row'.

(** [a % n] for a numpy integer [a]: the sign follows the divisor, and a
    zero divisor gives 0 (with a warning). *)
Definition pymod (a n : Z) : Z := if n =? 0 then 0 else a mod n.

(** ** Parameters of the notebook cell *)

Record params : Type := {
  N : Z;
  Steps : Z;
  J : Q;
  B : Q;
  kBT : Q
}.

(** The same configuration with another thermal energy. *)
Definition with_kBT (p : params) (t : Q) : params :=
  {| N := N p; Steps := Steps p; J := J p; B := B p; kBT := t |}.

(** ** deltaE *)

(** [Enow = -Sij*(J*(S[(i+1)%N,j]+S[(i-1)%N,j]+S[i,(j+1)%N]+S[i,(j-1)%N])+B)]
    and [return -2*Enow].  The spins are int64; the product with [J] is
    where the value becomes a float. *)
Definition deltaE (p : params) (S : lattice) (i j : Z) : result Q :=
  Sij <- getitem2 S i j ;;
  down <- getitem2 S (pymod (i + 1) (N p)) j ;;
  up <- getitem2 S (pymod (i - 1) (N p)) j ;;
  right <- getitem2 S i (pymod (j + 1) (N p)) ;;
  left <- getitem2 S i (pymod (j - 1) (N p)) ;;
  let Enow :=
    (inject_Z (i64_neg Sij)
     * (J p * inject_Z (i64_add (i64_add (i64_add down up) right) left) + B p))%Q in
  Ok (inject_Z (-2) * Enow)%Q.

(** ** Well-formed lattices *)

Definition is_square (n : Z) (S : lattice) : bool :=
  (Z.of_nat (length S) =? n) && forallb (fun r => Z.of_nat (length r) =? n) S.

Definition is_spin (s : Z) : bool := (s =? 1) || (s =? -1).

Definition spin_valued (S : lattice) : bool := forallb (forallb is_spin) S.

(** Total read of a cell, used to state properties of a lattice. *)
Definition cell (S : lattice) (i j : Z) : Z :=
  nth (Z.to_nat j) (nth (Z.to_nat i) S []) 0.

(** The lattice [S] with the cell [(i, j)] negated, stated cell by cell. *)
Definition flipped_at (S S' : lattice) (n i j : Z) : Prop :=
  is_square n S' = true /\
  forall a b, 0 <= a < n -> 0 <= b < n ->
    cell S' a b = if (a =? i) && (b =? j) then - cell S a b else cell S a b.

(** Sum of the four periodic nearest neighbours of [(i, j)]. *)
Definition neighbour_sum (n : Z) (S : lattice) (i j : Z) : Z :=
  cell S ((i + 1) mod n) j + cell S ((i - 1) mod n) j
  + cell S i ((j + 1) mod n) + cell S i ((j - 1) mod n).

(** The local field [J * (sum of neighbours) + B]. *)
Definition local_field (p : params) (S : lattice) (i j : Z) : Q :=
  (J p * inject_Z (neighbour_sum (N p) S i j) + B p)%Q.

(** ** Observables *)

Definition sum (l : list Z) : Z := fold_right Z.add 0 l.

(** [numpy.mean] of an integer array, accumulated in float64: the mean of an
    empty array is NaN (with a warning). *)
Definition np_mean (l : list Z) : float :=
  match l with
  | [] => NaN
  | _ :: _ => Finite (inject_Z (sum l) / inject_Z (Z.of_nat (length l)))
  end.

(** [a[::2]]; [a[1::2]] is [stride2 (tl a)]. *)
Fixpoint stride2 {A : Type} (l : list A) : list A :=
  match l with
  | [] => []
  | [x] => [x]
  | x :: _ :: t => x :: stride2 t
  end.

Fixpoint map2 {A B C : Type} (f : A -> B -> C) (a : list A) (b : list B) : list C :=
  match a, b with
  | x :: a', y :: b' => f x y :: map2 f a' b'
  | _, _ => []
  end.

(** [a * b] on one-dimensional int64 arrays, with numpy's broadcasting: the
    lengths must be equal, or one of them must be 1. *)
Definition np_multiply (a b : list Z) : result (list Z) :=
  if (length a =? length b)%nat then Ok (map2 i64_mul a b)
  else if (length a =? 1)%nat then Ok (map (i64_mul (hd 0 a)) b)
  else if (length b =? 1)%nat then Ok (map (fun x => i64_mul x (hd 0 b)) a)
  else Raise ValueError.

(** [spins.flatten()] *)
Definition flatten (S : lattice) : list Z := concat S.

(** [numpy.mean(spins)] *)
Definition magnetization (S : lattice) : float := np_mean (flatten S).

(** [-numpy.mean(spins.flatten()[::2] * spins.flatten()[1::2])]; the outer
    [numpy.mean] of the loop body is applied to a scalar and returns it. *)
Definition staggered (S : lattice) : result float :=
  prod <- np_multiply (stride2 (flatten S)) (stride2 (tl (flatten S))) ;;
  Ok (float_neg (np_mean prod)).

(** [numpy.zeros((n, 2))] *)
Definition np_zeros2 (n : Z) : result (list (float * float)) :=
  if n <? 0 then Raise ValueError
  else Ok (repeat (Finite 0, Finite 0) (Z.to_nat n)).

Record state : Type := {
  spins : lattice;
  M : list (float * float);
  MS : list (float * float)
}.

(** ** The random source *)

(** [numpy.random]: [random] is one call of [numpy.random.random()],
    [randint low high] one sample of [numpy.random.randint(low, high)] for
    [low < high]. *)
Class RandomState (G : Type) : Type := {
  random : G -> Q * G;
  randint : Z -> Z -> G -> Z * G;
  random_range : forall g, (0 <= fst (random g))%Q /\ (fst (random g) < 1)%Q;
  randint_range : forall low high g,
    low < high -> low <= fst (randint low high g) < high
}.

Section Simulation.

Context {G : Type} {RS : RandomState G}.

(** [numpy.exp] on finite arguments. *)
Variable exp : Q -> Q.

Definition np_exp (x : float) : float :=
  match x with
  | Finite q => Finite (exp q)
  | PosInf => PosInf
  | NegInf => Finite 0
  | NaN => NaN
  end.

(** [numpy.random.randint(low, high, 2)] *)
Definition np_randint2 (low high : Z) (g : G) : result (Z * Z * G) :=
  if high <=? low then Raise ValueError
  else
    let '(i, g1) := randint low high g in
    let '(j, g2) := randint low high g1 in
    Ok (i, j, g2).

Fixpoint random_row (n : nat) (g : G) : list Q * G :=
  match n with
  | O => ([], g)
  | S n' =>
      let '(u, g1) := random g in
      let '(us, g2) := random_row n' g1 in
      (u :: us, g2)
  end.

Fixpoint random_rows (r c : nat) (g : G) : list (list Q) * G :=
  match r with
  | O => ([], g)
  | S r' =>
      let '(row, g1) := random_row c g in
      let '(rows, g2) := random_rows r' c g1 in
      (row :: rows, g2)
  end.

(** [numpy.random.random((r, c))] *)
Definition np_random2 (r c : Z) (g : G) : result (list (list Q) * G) :=
  if (r <? 0) || (c <? 0) then Raise ValueError
  else Ok (random_rows (Z.to_nat r) (Z.to_nat c) g).

(** [numpy.where(a > 0.5, 1, -1)] *)
Definition where_gt_half (a : list (list Q)) : lattice :=
  map (map (fun u => if Qltb (1 # 2) u then 1 else -1)) a.

(** [(dE < 0.0) or (numpy.random.random() < numpy.exp(-dE / float(kBT)))]:
    [or] does not evaluate its right operand when the left one is true. *)
Definition accept (p : params) (dE : Q) (g : G) : bool * G :=
  if Qltb dE 0 then (true, g)
  else
    let '(u, g') := random g in
    (float_lt u (np_exp (true_divide (- dE) (kBT p))), g').

(** [spins[i, j] = -spins[i, j]] *)
Definition flip (S : lattice) (i j : Z) : result lattice :=
  s <- getitem2 S i j ;;
  setitem2 S i j (i64_neg s).

(** The site pick, the energy change and the conditional flip of one loop
    iteration. *)
Definition metropolis (p : params) (S : lattice) (g : G) : result (lattice * G) :=
  '(i, j, g1) <- np_randint2 0 (N p) g ;;
  dE <- deltaE p S i j ;;
  let '(acc, g2) := accept p dE g1 in
  if acc then
    S' <- flip S i j ;;
    Ok (S', g2)
  else Ok (S, g2).

(** The two writes [M[idx] = ...] and [MS[idx] = ...] of one iteration. *)
Definition record_observables (idx : Z) (S : lattice)
    (m ms : list (float * float)) : result state :=
  m' <- setitem m idx (Finite (inject_Z idx), magnetization S) ;;
  s <- staggered S ;;
  ms' <- setitem ms idx (Finite (inject_Z idx), s) ;;
  Ok {| spins := S; M := m'; MS := ms' |}.

(** The body of [for idx in range(Steps)]. *)
Definition step (p : params) (idx : Z) (st : state) (g : G) : result (state * G) :=
  '(S', g') <- metropolis p (spins st) g ;;
  st' <- record_observables idx S' (M st) (MS st) ;;
  Ok (st', g').

(** [n] consecutive iterations starting at index [idx]. *)
Fixpoint loop (p : params) (n : nat) (idx : Z) (st : state) (g : G)
    : result (state * G) :=
  match n with
  | O => Ok (st, g)
  | S n' =>
      '(st', g') <- step p idx st g ;;
      loop p n' (idx + 1) st' g'
  end.

(** The statements before the loop: [spins], [M], [MS] and the two seeded
    rows. *)
Definition init (p : params) (g : G) : result (state * G) :=
  '(a, g') <- np_random2 (N p) (N p) g ;;
  let S := where_gt_half a in
  m <- np_zeros2 (Steps p) ;;
  ms <- np_zeros2 (Steps p) ;;
  m' <- setitem m 0 (Finite 0, magnetization S) ;;
  s <- staggered S ;;
  ms' <- setitem ms 0 (Finite 0, s) ;;
  Ok ({| spins := S; M := m'; MS := ms' |}, g').

(** The first [k] iterations of the run, after initialisation. *)
Definition run_prefix (p : params) (k : nat) (g : G) : result (state * G) :=
  '(st, g') <- init p g ;;
  loop p k 0 st g'.

(** The whole cell. *)
Definition main (p : params) (g : G) : result (state * G) :=
  run_prefix p (Z.to_nat (Steps p)) g.

End Simulation.

(** ** The observables as the specification words them *)

Fixpoint sum_upto (m : nat) (f : nat -> Z) : Z :=
  match m with
  | O => 0
  | S m' => sum_upto m' f + f m'
  end.

(** The [k]-th element of the row-major flattening of an [n] x [n] lattice. *)
Definition flat_at (n : Z) (S : lattice) (k : Z) : Z := cell S (k / n) (k mod n).

(** Arithmetic mean of all [n] x [n] lattice values. *)
Definition spec_mean_magnetization (n : Z) (S : lattice) : float :=
  if n * n =? 0 then NaN
  else
    Finite (inject_Z (sum_upto (Z.to_nat n) (fun i =>
                        sum_upto (Z.to_nat n) (fun j =>
                          cell S (Z.of_nat i) (Z.of_nat j))))
            / inject_Z (n * n)).

(** Negative of the mean of the products of the spin at each even position
    of the flattening with the spin at the following odd position. *)
Definition spec_staggered (n : Z) (S : lattice) : float :=
  let pairs := n * n / 2 in
  if pairs =? 0 then NaN
  else
    Finite (- (inject_Z (sum_upto (Z.to_nat pairs) (fun k =>
                           flat_at n S (2 * Z.of_nat k)
                           * flat_at n S (2 * Z.of_nat k + 1)))
               / inject_Z pairs)).

(** ** A concrete random source, for running the model *)

Definition lcg (g : Z) : Z := (1103515245 * g + 12345) mod 2 ^ 31.

Definition lcg_random (g : Z) : Q * Z := (Qmake (g mod 1000) 1000, lcg g).

Definition lcg_randint (low high : Z) (g : Z) : Z * Z :=
  (low + g mod (high - low), lcg g).

Lemma lcg_random_range (g : Z) :
  (0 <= fst (lcg_random g))%Q /\ (fst (lcg_random g) < 1)%Q.
Proof.
  unfold lcg_random, Qle, Qlt; simpl.
  pose proof (Z.mod_pos_bound g 1000 ltac:(lia)). lia.
Qed.

Lemma lcg_randint_range (low high g : Z) :
  low < high -> low <= fst (lcg_randint low high g) < high.
Proof.
  intros H. unfold lcg_randint; simpl.
  pose proof (Z.mod_pos_bound g (high - low) ltac:(lia)). lia.
Qed.

#[export] Instance lcg_state : RandomState Z := {
  random := lcg_random;
  randint := lcg_randint;
  random_range := lcg_random_range;
  randint_range := lcg_randint_range
}.

(** A crude rational stand-in for the exponential: [1 + x] clipped at 0. *)
Definition sample_exp (x : Q) : Q := if Qle_bool (-1) x then (1 + x)%Q else 0%Q.

(** The scenario of the specification: N = 2, all spins up, J = -2, B = 0,
    k_BT = 1. *)
Definition ones2 : lattice := [[1; 1]; [1; 1]].

Definition sample_params : params :=
  {| N := 2; Steps := 3; J := (-2)%Q; B := 0%Q; kBT := 1%Q |}.

(** A state on which three iterations can run. *)
Definition sample_state : state :=
  {| spins := ones2;
     M := repeat (Finite 0, Finite 0) 3;
     MS := repeat (Finite 0, Finite 0) 3 |}.

(** A configuration with a zero thermal energy. *)
Definition cold_params : params :=
  {| N := 2; Steps := 2; J := (-2)%Q; B := (1 # 2)%Q; kBT := 0%Q |}.

(** The scenario N = 10, Steps = 0, with the notebook's J, B and kBT. *)
Definition no_steps_params : params :=
  {| N := 10; Steps := 0; J := (-2)%Q; B := (-2)%Q; kBT := 3%Q |}.

(** A configuration with a negative size. *)
Definition negative_size_params : params :=
  {| N := -1; Steps := 3; J := (-2)%Q; B := (-2)%Q; kBT := 3%Q |}.

(** The state and random source left by a computation, for reading the
    outcome of a concrete run. *)
Definition outcome {G : Type} (r : result (state * G)) (g : G) : state * G :=
  match r with
  | Ok x => x
  | Raise _ => ({| spins := []; M := []; MS := [] |}, g)
  end.

Definition state_after_init {G : Type} {RS : RandomState G}
    (p : params) (g : G) : state * G :=
  outcome (init p g) g.

Definition state_after {G : Type} {RS : RandomState G}
    (exp : Q -> Q) (p : params) (k : nat) (g : G) : state * G :=
  outcome (run_prefix exp p k g) g.

(** ** Predicates used in the statements *)

Definition lattice_ok (n : Z) (S : lattice) : bool :=
  is_square n S && spin_valued S.

(** The computation [r] returns a value satisfying [P]. *)
Definition returns {A : Type} (r : result A) (P : A -> Prop) : Prop :=
  exists a, r = Ok a /\ P a.

(** Every cell of the [n] x [n] lattice is a spin. *)
Definition cells_spin (n : Z) (S : lattice) : Prop :=
  forall a b, 0 <= a < n -> 0 <= b < n -> is_spin (cell S a b) = true.

(** The value [-2 * (S[i,j] * (J * (sum of neighbours) + B))]. *)
Definition minus_twice_spin_field (p : params) (S : lattice) (i j : Z) : Q :=
  (inject_Z (-2) * (inject_Z (cell S i j) * local_field p S i j))%Q.

(** The energy contribution [-S[i,j] * (J * (sum of neighbours) + B)] of
    the site in the Hamiltonian of the notebook. *)
Definition site_energy (p : params) (S : lattice) (i j : Z) : Q :=
  (- (inject_Z (cell S i j) * local_field p S i j))%Q.

(** [deltaE] at [(i, j)] on [S'] is the negation of [deltaE] on [S]. *)
Definition antisymmetric_at (p : params) (S S' : lattice) (i j : Z) : Prop :=
  exists d d',
    deltaE p S i j = Ok d /\ deltaE p S' i j = Ok d' /\ (d' == - d)%Q.

(** A one-site lattice, whose only site is its own neighbour. *)
Definition single_params : params :=
  {| N := 1; Steps := 1; J := (-2)%Q; B := 0%Q; kBT := 1%Q |}.

(** The sizes for which the even and odd slices of the flattening can be
    multiplied. *)
Definition staggered_defined (n : Z) : bool := Z.even n || (n =? 1).

(** Row [idx] of [M] and of [MS] holds the step index and the value of the
    observable, as the specification words it, on the lattice of [st]. *)
Definition observed_at (p : params) (st : state) (idx : Z) : Prop :=
  exists m s,
    nth_error (M st) (Z.to_nat idx) = Some (Finite (inject_Z idx), m)
    /\ float_eq m (spec_mean_magnetization (N p) (spins st))
    /\ nth_error (MS st) (Z.to_nat idx) = Some (Finite (inject_Z idx), s)
    /\ float_eq s (spec_staggered (N p) (spins st)).

(** The step indices 0, 1, ..., n-1 as they are stored in a float array. *)
Definition step_indices (n : nat) : list float :=
  map (fun k => Finite (inject_Z (Z.of_nat k))) (seq 0 n).

(** ** The display *)

(** [a[:i]]: the rows before [i]; a negative bound counts from the end. *)
Definition slice_to {A : Type} (l : list A) (i : Z) : list A :=
  if 0 <=? i then firstn (Z.to_nat i) l
  else firstn (Z.to_nat (Z.of_nat (length l) + i)) l.

(** What one call of [live_plot] draws: the image of the lattice with its
    colour range, the two curves as their x and y columns, and the limits
    of the y axes. *)
Record frame : Type := {
  image : lattice;
  colour_range : Q * Q;
  m_x : list float;
  m_y : list float;
  ms_x : list float;
  ms_y : list float;
  y_limits : Q * Q
}.

(** [live_plot(data_2D, data_M, data_MS)]: [imshow(data_2D, vmin = -1,
    vmax = 1)], [plot(data_M[:, 0], data_M[:, 1])] and
    [plot(data_MS[:, 0], data_MS[:, 1])], both with
    [set_ylim(-1.1, 1.1)]. *)
Definition live_plot (data_2D : lattice) (data_M data_MS : list (float * float))
    : frame :=
  {| image := data_2D;
     colour_range := ((-1)%Q, 1%Q);
     m_x := map fst data_M;
     m_y := map snd data_M;
     ms_x := map fst data_MS;
     ms_y := map snd data_MS;
     y_limits := ((- (11 # 10))%Q, (11 # 10)%Q) |}.

Section Display.

Context {G : Type} {RS : RandomState G}.
Variable exp : Q -> Q.

(** The body of the loop with its last statement,
    [if idx % 999 == 0: live_plot(spins, M[:idx], MS[:idx])]. *)
Definition step_plot (p : params) (idx : Z) (st : state) (g : G)
    : result (state * G * option frame) :=
  '(st', g') <- step exp p idx st g ;;
  Ok (st', g',
      if idx mod 999 =? 0
      then Some (live_plot (spins st') (slice_to (M st') idx) (slice_to (MS st') idx))
      else None).

(** [n] iterations from index [idx], with the frames drawn, in order. *)
Fixpoint loop_plot (p : params) (n : nat) (idx : Z) (st : state) (g : G)
    : result (state * G * list frame) :=
  match n with
  | O => Ok (st, g, [])
  | S n' =>
      '(st1, g1, f) <- step_plot p idx st g ;;
      '(st2, g2, fs) <- loop_plot p n' (idx + 1) st1 g1 ;;
      Ok (st2, g2, match f with Some x => x :: fs | None => fs end)
  end.

(** The whole cell, with the frames it draws. *)
Definition main_plot (p : params) (g : G) : result (state * G * list frame) :=
  '(st, g') <- init p g ;;
  loop_plot p (Z.to_nat (Steps p)) 0 st g'.

End Display.

(** The indices in [idx, idx + n) at which the loop draws. *)
Definition plot_indices (idx : Z) (n : nat) : list Z :=
  filter (fun i => i mod 999 =? 0) (map (fun k => idx + Z.of_nat k) (seq 0 n)).

(** The frame drawn at index [i] from the state [r] reached after the
    iteration [i]. *)
Definition frame_of {G : Type} (r : result (state * G)) (i : Z) : frame :=
  match r with
  | Ok (si, _) => live_plot (spins si) (slice_to (M si) i) (slice_to (MS si) i)
  | Raise _ => live_plot [] [] []
  end.

(** The state, random source and frames left by a run with the display. *)
Definition plot_outcome {G : Type} (r : result (state * G * list frame)) (g : G)
    : state * G * list frame :=
  match r with
  | Ok x => x
  | Raise _ => ({| spins := []; M := []; MS := [] |}, g, [])
  end.

(** ** Vocabulary of the further properties *)

(** The random source after [k] calls of [numpy.random.random()]. *)
Definition draws {G : Type} {RS : RandomState G} (k : nat) (g : G) : G :=
  Nat.iter k (fun h => snd (random h)) g.


(** The lattice with every spin negated, [-S]. *)
Definition negate (S : lattice) : lattice := map (map i64_neg) S.

(** The same configuration with another external field. *)
Definition with_B (p : params) (b : Q) : params :=
  {| N := N p; Steps := Steps p; J := J p; B := b; kBT := kBT p |}.

(** The value of a float that is a number. *)
Definition is_number_in (lo hi : Q) (x : float) : Prop :=
  match x with
  | Finite q => (lo <= q)%Q /\ (q <= hi)%Q
  | _ => False
  end.

(** The Hamiltonian of the notebook's introduction,
    H = -1/2 J sum_<i,j> S_i S_j - B sum_i S_i: [bond_sum] is the sum of
    S_i S_j over the ordered pairs of periodic nearest neighbours,
    [spin_sum] the sum of all spins. *)
Definition bond_sum (n : Z) (S : lattice) : Z :=
  sum_upto (Z.to_nat n) (fun a =>
    sum_upto (Z.to_nat n) (fun b =>
      cell S (Z.of_nat a) (Z.of_nat b)
      * neighbour_sum n S (Z.of_nat a) (Z.of_nat b))).

Definition spin_sum (n : Z) (S : lattice) : Z :=
  sum_upto (Z.to_nat n) (fun a =>
    sum_upto (Z.to_nat n) (fun b => cell S (Z.of_nat a) (Z.of_nat b))).

Definition hamiltonian (p : params) (S : lattice) : Q :=
  (- (1 # 2) * J p * inject_Z (bond_sum (N p) S)
   - B p * inject_Z (spin_sum (N p) S))%Q.

(** The sum of [F a b] over the cells of an n x n lattice. *)
Definition cell_sum (n : nat) (F : Z -> Z -> Z) : Z :=
  sum_upto n (fun a => sum_upto n (fun b => F (Z.of_nat a) (Z.of_nat b))).

(** A configuration with an empty lattice. *)
Definition empty_params : params :=
  {| N := 0; Steps := 3; J := (-2)%Q; B := (-2)%Q; kBT := 3%Q |}.

(** A configuration with an odd size. *)
Definition odd_params : params :=
  {| N := 3; Steps := 3; J := (-2)%Q; B := (-2)%Q; kBT := 3%Q |}.

(** [ones2] with the spin at (1, 0) flipped. *)
Definition ones2_flipped : lattice := [[1; 1]; [-1; 1]].

(** The lattice and random source left by a flip attempt. *)
Definition attempt_outcome {G : Type} (r : result (lattice * G)) (S : lattice) (g : G)
    : lattice * G :=
  match r with
  | Ok x => x
  | Raise _ => (S, g)
  end.

(** A 4 x 4 configuration with a zero thermal energy. *)
Definition cold_params4 : params :=
  {| N := 4; Steps := 5; J := (-2)%Q; B := (1 # 2)%Q; kBT := 0%Q |}.

(** A configuration on a 4 x 4 lattice. *)
Definition lattice4 : lattice :=
  [[1; -1; 1; 1]; [-1; -1; 1; -1]; [1; 1; -1; 1]; [1; -1; -1; -1]].

Definition params4 : params :=
  {| N := 4; Steps := 5; J := (-2)%Q; B := (1 # 2)%Q; kBT := 3%Q |}.

(** A configuration without steps to leave out, long enough for two
    frames. *)
Definition params_two_frames : params :=
  {| N := 2; Steps := 1001; J := (-2)%Q; B := (-2)%Q; kBT := 3%Q |}.

(** * Properties *)

(** ** Basic facts *)

Lemma bind_ok {A B : Type} (r : result A) (k : A -> result B) (b : B) :
  bind r k = Ok b -> exists a, r = Ok a /\ k a = Ok b.
Proof. destruct r as [a|e]; simpl; intros H; [eauto | discriminate]. Qed.

Lemma wrap64_small (z : Z) : - 2 ^ 63 <= z < 2 ^ 63 -> wrap64 z = z.
Proof.
  intros H. unfold wrap64. rewrite Z.mod_small; lia.
Qed.

Lemma is_spin_cases (s : Z) : is_spin s = true -> s = 1 \/ s = -1.
Proof. unfold is_spin. lia. Qed.

Lemma is_spin_neg (s : Z) : is_spin s = true -> is_spin (- s) = true.
Proof. unfold is_spin. lia. Qed.

Lemma index_in_range (len i : Z) :
  0 <= i < len -> index len i = Ok (Z.to_nat i).
Proof.
  intros H. unfold index.
  replace ((0 <=? i) && (i <? len)) with true by lia. reflexivity.
Qed.

Lemma getitem_in_range {A : Type} (l : list A) (i : Z) (d : A) :
  0 <= i < Z.of_nat (length l) -> getitem l i = Ok (nth (Z.to_nat i) l d).
Proof.
  intros H. unfold getitem. rewrite index_in_range by assumption. simpl.
  destruct (nth_error l (Z.to_nat i)) as [x|] eqn:E.
  - now rewrite (nth_error_nth _ _ d E).
  - apply nth_error_None in E. lia.
Qed.

Lemma setitem_in_range {A : Type} (l : list A) (i : Z) (x : A) :
  0 <= i < Z.of_nat (length l) -> setitem l i x = Ok (list_set l (Z.to_nat i) x).
Proof.
  intros H. unfold setitem. now rewrite index_in_range.
Qed.

Lemma list_set_length {A : Type} (l : list A) (k : nat) (x : A) :
  length (list_set l k x) = length l.
Proof.
  revert k; induction l as [|y t IH]; intros [|k]; simpl; auto.
Qed.

Lemma nth_list_set_same {A : Type} (l : list A) (k : nat) (x d : A) :
  (k < length l)%nat -> nth k (list_set l k x) d = x.
Proof.
  revert k; induction l as [|y t IH]; intros [|k]; simpl; intros H;
    try lia; auto. apply IH. lia.
Qed.

Lemma nth_list_set_other {A : Type} (l : list A) (k k' : nat) (x d : A) :
  k <> k' -> nth k' (list_set l k x) d = nth k' l d.
Proof.
  revert k k'; induction l as [|y t IH]; intros [|k] [|k']; simpl; intros H;
    try congruence; auto.
Qed.

Lemma nth_error_list_set_same {A : Type} (l : list A) (k : nat) (x : A) :
  (k < length l)%nat -> nth_error (list_set l k x) k = Some x.
Proof.
  revert k; induction l as [|y t IH]; intros [|k]; simpl; intros H;
    try lia; auto. apply IH. lia.
Qed.

Lemma nth_error_list_set_other {A : Type} (l : list A) (k k' : nat) (x : A) :
  k <> k' -> nth_error (list_set l k x) k' = nth_error l k'.
Proof.
  revert k k'; induction l as [|y t IH]; intros [|k] [|k']; simpl; intros H;
    try congruence; auto.
Qed.

(** ** Square lattices *)

Lemma is_square_length (n : Z) (S : lattice) :
  is_square n S = true -> Z.of_nat (length S) = n.
Proof.
  unfold is_square. intros H. apply andb_prop in H. lia.
Qed.

Lemma is_square_row (n : Z) (S : lattice) (k : nat) :
  is_square n S = true -> (k < length S)%nat ->
  Z.of_nat (length (nth k S [])) = n.
Proof.
  unfold is_square. intros H Hk. apply andb_prop in H as [_ H].
  rewrite forallb_forall in H. apply Z.eqb_eq, H, nth_In, Hk.
Qed.

Lemma getitem2_cell (n : Z) (S : lattice) (i j : Z) :
  is_square n S = true -> 0 <= i < n -> 0 <= j < n ->
  getitem2 S i j = Ok (cell S i j).
Proof.
  intros Hsq Hi Hj. unfold getitem2, cell.
  pose proof (is_square_length _ _ Hsq) as Hlen.
  rewrite (getitem_in_range S i []) by lia. simpl.
  apply getitem_in_range.
  rewrite (is_square_row n) by (assumption || lia). lia.
Qed.

Lemma cell_is_spin (n : Z) (S : lattice) (i j : Z) :
  lattice_ok n S = true -> 0 <= i < n -> 0 <= j < n ->
  is_spin (cell S i j) = true.
Proof.
  unfold lattice_ok. intros H Hi Hj. apply andb_prop in H as [Hsq Hsp].
  pose proof (is_square_length _ _ Hsq) as Hlen.
  unfold spin_valued in Hsp. rewrite forallb_forall in Hsp.
  assert (Hrow : In (nth (Z.to_nat i) S []) S) by (apply nth_In; lia).
  specialize (Hsp _ Hrow). rewrite forallb_forall in Hsp.
  apply Hsp. unfold cell. apply nth_In.
  pose proof (is_square_row n S (Z.to_nat i) Hsq ltac:(lia)). lia.
Qed.

Lemma pymod_pos (a n : Z) : 0 < n -> pymod a n = a mod n /\ 0 <= a mod n < n.
Proof.
  intros H. unfold pymod. replace (n =? 0) with false by lia.
  split; [reflexivity | apply Z.mod_pos_bound; lia].
Qed.

Lemma lattice_ok_square (n : Z) (S : lattice) :
  lattice_ok n S = true -> is_square n S = true.
Proof. unfold lattice_ok. intros H. now apply andb_prop in H. Qed.

Lemma lattice_ok_cells (n : Z) (S : lattice) :
  lattice_ok n S = true -> cells_spin n S.
Proof. intros H a b Ha Hb. now apply (cell_is_spin n). Qed.

(** The value computed by [deltaE] on a well-formed lattice: the int64
    operations do not wrap on spins. *)
Lemma deltaE_value (p : params) (S : lattice) (i j : Z) :
  is_square (N p) S = true -> cells_spin (N p) S ->
  0 <= i < N p -> 0 <= j < N p ->
  deltaE p S i j =
  Ok (inject_Z (-2)
      * (inject_Z (- cell S i j) * local_field p S i j))%Q.
Proof.
  intros Hsq Hok Hi Hj.
  assert (Hn : 0 < N p) by lia.
  destruct (pymod_pos (i + 1) _ Hn) as [E1 B1].
  destruct (pymod_pos (i - 1) _ Hn) as [E2 B2].
  destruct (pymod_pos (j + 1) _ Hn) as [E3 B3].
  destruct (pymod_pos (j - 1) _ Hn) as [E4 B4].
  unfold deltaE. rewrite E1, E2, E3, E4.
  rewrite !(getitem2_cell (N p)) by assumption. simpl.
  unfold local_field, neighbour_sum.
  pose proof (is_spin_cases _ (Hok _ _ Hi Hj)).
  pose proof (is_spin_cases _ (Hok _ _ B1 Hj)).
  pose proof (is_spin_cases _ (Hok _ _ B2 Hj)).
  pose proof (is_spin_cases _ (Hok _ _ Hi B3)).
  pose proof (is_spin_cases _ (Hok _ _ Hi B4)).
  unfold i64_neg, i64_add.
  rewrite (wrap64_small (- cell S i j)) by lia.
  rewrite (wrap64_small (cell S ((i + 1) mod N p) j + _)) by lia.
  rewrite (wrap64_small (_ + cell S i ((j + 1) mod N p))) by lia.
  rewrite (wrap64_small (_ + cell S i ((j - 1) mod N p))) by lia.
  reflexivity.
Qed.

(** ** The energy change *)

(** The scenario of the specification: the value is -16. *)
Example deltaE_scenario : deltaE sample_params ones2 0 0 = Ok (-16)%Q.
Proof. reflexivity. Qed.

(** C1, as claimed: on the 2 x 2 lattice of up spins with J = -2 and B = 0,
    [deltaE] at (0, 0) does not return -2 * (S[0,0] * (J * 4 + B)) = 16. *)
Lemma deltaE_claimed_sign_fails :
  ~ returns (deltaE sample_params ones2 0 0)
      (fun d => (d == minus_twice_spin_field sample_params ones2 0 0)%Q).
Proof.
  intros [d [E H]]. vm_compute in E. injection E as <-.
  vm_compute in H. discriminate H.
Qed.

(** C1, amended: for an N x N lattice of spins and a site (i, j) in range,
    [deltaE] returns -2 times the site's current energy contribution
    -S[i,j] * (J * (sum of the four periodic neighbours) + B), that is
    +2 * S[i,j] * (J * (sum of neighbours) + B). *)
Theorem deltaE_formula (p : params) (S : lattice) (i j : Z) :
  lattice_ok (N p) S = true -> 0 <= i < N p -> 0 <= j < N p ->
  returns (deltaE p S i j)
    (fun d => (d == inject_Z (-2) * site_energy p S i j)%Q
              /\ (d == 2 * (inject_Z (cell S i j) * local_field p S i j))%Q).
Proof.
  intros Hok Hi Hj. eexists. split.
  - apply deltaE_value; auto using lattice_ok_square, lattice_ok_cells.
  - unfold site_energy. rewrite inject_Z_opp.
    split; [ring | change (inject_Z (-2)) with (-2)%Q; ring].
Qed.

Lemma deltaE_formula_witness :
  returns (deltaE sample_params ones2 1 0)
    (fun d => (d == inject_Z (-2) * site_energy sample_params ones2 1 0)%Q
              /\ (d == 2 * (inject_Z (cell ones2 1 0)
                            * local_field sample_params ones2 1 0))%Q).
Proof.
  apply (deltaE_formula sample_params ones2 1 0);
    [reflexivity | simpl; lia | simpl; lia].
Defined.

(** C9, as claimed: on the 1 x 1 lattice the only site is its own four
    neighbours, so negating it negates the neighbour sum too and [deltaE]
    keeps its value. *)
Lemma deltaE_antisymmetry_fails_single_site :
  lattice_ok (N single_params) [[1]] = true
  /\ flipped_at [[1]] [[-1]] (N single_params) 0 0
  /\ ~ antisymmetric_at single_params [[1]] [[-1]] 0 0.
Proof.
  split; [reflexivity | split].
  - split; [reflexivity |]. simpl. intros a b Ha Hb.
    assert (a = 0) as -> by lia. assert (b = 0) as -> by lia. reflexivity.
  - intros [d [d' [E [E' H]]]].
    vm_compute in E, E'. injection E as <-. injection E' as <-.
    vm_compute in H. discriminate H.
Qed.

(** C9, amended: for N >= 2, an N x N lattice S of spins and a site (i, j)
    in range, if S' is S with the spin at (i, j) negated and every other
    cell equal, then deltaE(S', i, j) = - deltaE(S, i, j). *)
Theorem deltaE_antisymmetric (p : params) (S S' : lattice) (i j : Z) :
  2 <= N p -> lattice_ok (N p) S = true -> flipped_at S S' (N p) i j ->
  0 <= i < N p -> 0 <= j < N p ->
  antisymmetric_at p S S' i j.
Proof.
  intros Hn Hok [Hsq' Hcells] Hi Hj.
  pose proof (lattice_ok_cells _ _ Hok) as Hsp.
  assert (Hsp' : cells_spin (N p) S').
  { intros a b Ha Hb. rewrite Hcells by assumption.
    destruct ((a =? i) && (b =? j)); [apply is_spin_neg |]; now apply Hsp. }
  assert (B1 : 0 <= (i + 1) mod N p < N p) by (apply Z.mod_pos_bound; lia).
  assert (B2 : 0 <= (i - 1) mod N p < N p) by (apply Z.mod_pos_bound; lia).
  assert (B3 : 0 <= (j + 1) mod N p < N p) by (apply Z.mod_pos_bound; lia).
  assert (B4 : 0 <= (j - 1) mod N p < N p) by (apply Z.mod_pos_bound; lia).
  assert (D1 : (i + 1) mod N p <> i).
  { destruct (Z.eq_dec (i + 1) (N p)) as [E|E].
    - rewrite E, Z.mod_same by lia. lia.
    - rewrite Z.mod_small by lia. lia. }
  assert (D2 : (i - 1) mod N p <> i).
  { destruct (Z.eq_dec i 0) as [E|E].
    - subst i. replace (0 - 1) with (-1 * N p + (N p - 1)) by lia.
      rewrite Z.add_comm, Z.mod_add by lia. rewrite Z.mod_small by lia. lia.
    - rewrite Z.mod_small by lia. lia. }
  assert (D3 : (j + 1) mod N p <> j).
  { destruct (Z.eq_dec (j + 1) (N p)) as [E|E].
    - rewrite E, Z.mod_same by lia. lia.
    - rewrite Z.mod_small by lia. lia. }
  assert (D4 : (j - 1) mod N p <> j).
  { destruct (Z.eq_dec j 0) as [E|E].
    - subst j. replace (0 - 1) with (-1 * N p + (N p - 1)) by lia.
      rewrite Z.add_comm, Z.mod_add by lia. rewrite Z.mod_small by lia. lia.
    - rewrite Z.mod_small by lia. lia. }
  exists (inject_Z (-2) * (inject_Z (- cell S i j) * local_field p S i j))%Q,
         (inject_Z (-2) * (inject_Z (- cell S' i j) * local_field p S' i j))%Q.
  split; [apply deltaE_value; auto using lattice_ok_square |].
  split; [apply deltaE_value; auto |].
  assert (Hf : local_field p S' i j = local_field p S i j).
  { unfold local_field, neighbour_sum. rewrite !Hcells by assumption.
    replace ((i + 1) mod N p =? i) with false by lia.
    replace ((i - 1) mod N p =? i) with false by lia.
    replace ((j + 1) mod N p =? j) with false by lia.
    replace ((j - 1) mod N p =? j) with false by lia.
    rewrite !andb_false_r. reflexivity. }
  rewrite Hf, Hcells by assumption.
  rewrite !Z.eqb_refl. simpl. rewrite !inject_Z_opp. ring.
Qed.

Lemma deltaE_antisymmetric_witness :
  antisymmetric_at sample_params ones2 [[1; 1]; [-1; 1]] 1 0.
Proof.
  apply (deltaE_antisymmetric sample_params ones2 [[1; 1]; [-1; 1]] 1 0);
    [simpl; lia | reflexivity | | simpl; lia | simpl; lia].
  split; [reflexivity |]. simpl. intros a b Ha Hb.
  assert (a = 0 \/ a = 1) as [-> | ->] by lia;
    (assert (b = 0 \/ b = 1) as [-> | ->] by lia); reflexivity.
Defined.

(** ** Writing one cell *)

Lemma forallb_list_set {A : Type} (f : A -> bool) (l : list A) (k : nat) (x : A) :
  forallb f l = true -> f x = true -> forallb f (list_set l k x) = true.
Proof.
  revert k; induction l as [|y t IH]; intros [|k]; simpl; intros H Hx; auto.
  - apply andb_prop in H as [_ H]. now rewrite Hx.
  - apply andb_prop in H as [Hy H]. rewrite Hy. now apply IH.
Qed.

Lemma forallb_nth {A : Type} (f : A -> bool) (l : list A) (k : nat) (d : A) :
  forallb f l = true -> (k < length l)%nat -> f (nth k l d) = true.
Proof.
  intros H Hk. rewrite forallb_forall in H. now apply H, nth_In.
Qed.

(** [S[i, j] = v] on a square lattice, for a site in range. *)
Lemma setitem2_in_range (n : Z) (S : lattice) (i j v : Z) :
  is_square n S = true -> 0 <= i < n -> 0 <= j < n ->
  exists S',
    setitem2 S i j v = Ok S'
    /\ is_square n S' = true
    /\ (spin_valued S = true -> is_spin v = true -> spin_valued S' = true)
    /\ forall a b, 0 <= a < n -> 0 <= b < n ->
         cell S' a b = if (a =? i) && (b =? j) then v else cell S a b.
Proof.
  intros Hsq Hi Hj.
  pose proof (is_square_length _ _ Hsq) as Hlen.
  pose proof (is_square_row n S (Z.to_nat i) Hsq ltac:(lia)) as Hrow.
  set (row := nth (Z.to_nat i) S []) in *.
  exists (list_set S (Z.to_nat i) (list_set row (Z.to_nat j) v)).
  split; [| split; [| split]].
  - unfold setitem2. rewrite (getitem_in_range S i []) by lia. simpl.
    fold row. rewrite setitem_in_range by lia. simpl.
    apply setitem_in_range. lia.
  - unfold is_square in *. apply andb_prop in Hsq as [H1 H2].
    rewrite list_set_length, H1. simpl.
    apply forallb_list_set; [assumption |].
    rewrite list_set_length. lia.
  - intros Hsp Hv. unfold spin_valued in *.
    apply forallb_list_set; [assumption |].
    apply forallb_list_set; [| assumption].
    apply forallb_nth; [assumption | lia].
  - intros a b Ha Hb. unfold cell.
    destruct (Z.eqb_spec a i) as [->|Hai]; simpl.
    + rewrite nth_list_set_same by lia.
      destruct (Z.eqb_spec b j) as [->|Hbj].
      * apply nth_list_set_same. lia.
      * rewrite nth_list_set_other by lia. reflexivity.
    + rewrite nth_list_set_other by lia. reflexivity.
Qed.

(** ** One flip attempt *)

Section FlipAttempt.

Context {G : Type} {RS : RandomState G}.
Variable exp : Q -> Q.

Lemma np_randint2_pos (n : Z) (g : G) :
  0 < n ->
  let i := fst (randint 0 n g) in
  let g1 := snd (randint 0 n g) in
  let j := fst (randint 0 n g1) in
  let g2 := snd (randint 0 n g1) in
  np_randint2 0 n g = Ok (i, j, g2) /\ 0 <= i < n /\ 0 <= j < n.
Proof.
  intros Hn i g1 j g2. unfold np_randint2.
  replace (n <=? 0) with false by lia.
  pose proof (randint_range 0 n g Hn).
  pose proof (randint_range 0 n g1 Hn).
  subst i j g2 g1.
  destruct (randint 0 n g) as [i g1]; simpl in *.
  destruct (randint 0 n g1) as [j g2]; simpl in *. auto.
Qed.

Lemma Qltb_lt (x y : Q) : Qltb x y = true <-> (x < y)%Q.
Proof.
  unfold Qltb. rewrite negb_true_iff, <- not_true_iff_false, Qle_bool_iff.
  split; [apply Qnot_le_lt | apply Qlt_not_le].
Qed.

Lemma Qltb_ge (x y : Q) : Qltb x y = false <-> (y <= x)%Q.
Proof.
  unfold Qltb. rewrite negb_false_iff. apply Qle_bool_iff.
Qed.

(** The flip [spins[i, j] = -spins[i, j]] on a lattice of spins. *)
Lemma flip_in_range (n : Z) (S : lattice) (i j : Z) :
  lattice_ok n S = true -> 0 <= i < n -> 0 <= j < n ->
  exists S',
    flip S i j = Ok S'
    /\ lattice_ok n S' = true /\ flipped_at S S' n i j.
Proof.
  intros Hok Hi Hj. unfold flip.
  pose proof (lattice_ok_square _ _ Hok) as Hsq.
  pose proof (is_spin_cases _ (cell_is_spin _ _ _ _ Hok Hi Hj)) as Hs.
  rewrite (getitem2_cell n) by assumption. simpl.
  unfold i64_neg. rewrite wrap64_small by lia.
  destruct (setitem2_in_range n S i j (- cell S i j) Hsq Hi Hj)
    as [S' [E [Hsq' [Hsp' Hcells]]]].
  exists S'. split; [assumption |]. split.
  - unfold lattice_ok in *. apply andb_prop in Hok as [_ Hsp].
    rewrite Hsq'. simpl. apply Hsp'; [assumption |].
    apply is_spin_neg. now apply (cell_is_spin n); [unfold lattice_ok; rewrite Hsq, Hsp|..].
  - split; [assumption |]. intros a b Ha Hb. rewrite Hcells by assumption.
    destruct (Z.eqb_spec a i) as [->|]; simpl; [| reflexivity].
    destruct (Z.eqb_spec b j) as [->|]; reflexivity.
Qed.

(** The flip attempt never fails on a lattice of spins, and leaves a lattice
    of spins of the same size. *)
Lemma metropolis_total (p : params) (S : lattice) (g : G) :
  0 < N p -> lattice_ok (N p) S = true ->
  exists S' g', metropolis exp p S g = Ok (S', g') /\ lattice_ok (N p) S' = true.
Proof.
  intros Hn Hok. unfold metropolis.
  destruct (np_randint2_pos (N p) g Hn) as [E [Hi Hj]]. rewrite E.
  cbn [bind].
  rewrite deltaE_value by auto using lattice_ok_square, lattice_ok_cells.
  cbn [bind]. destruct (accept exp p _ _) as [acc g2]. destruct acc.
  - destruct (flip_in_range _ _ _ _ Hok Hi Hj) as [S' [E' [Hok' _]]].
    rewrite E'. cbn [bind]. eauto.
  - eauto.
Qed.

End FlipAttempt.

(** ** The even and odd slices of the flattening *)

Lemma list_pair_ind {A : Type} (P : list A -> Prop) :
  P [] -> (forall x, P [x]) -> (forall x y l, P l -> P (x :: y :: l)) ->
  forall l, P l.
Proof.
  intros H0 H1 H2 l.
  assert (H : P l /\ forall x, P (x :: l)).
  { induction l as [|y t [IH1 IH2]]; split; auto. }
  apply H.
Qed.

Lemma stride2_lengths {A : Type} (l : list A) :
  (length (stride2 l) + length (stride2 (tl l)) = length l)%nat
  /\ (length (stride2 l) = length (stride2 (tl l))
      \/ length (stride2 l) = Datatypes.S (length (stride2 (tl l)))).
Proof.
  induction l as [| x | x y l IH] using list_pair_ind; simpl; try lia.
  destruct l as [|z l]; simpl in *; lia.
Qed.

Lemma nth_stride2 {A : Type} (l : list A) (k : nat) (d : A) :
  nth k (stride2 l) d = nth (2 * k) l d.
Proof.
  revert k. induction l as [| x | x y l IH] using list_pair_ind; intros k.
  - destruct k; reflexivity.
  - destruct k as [|k]; simpl; [reflexivity |].
    destruct k; simpl; [reflexivity |].
    replace (k + Datatypes.S (Datatypes.S (k + 0)))%nat
      with (Datatypes.S (Datatypes.S (k + k)))%nat by lia.
    destruct (k + k)%nat; reflexivity.
  - destruct k as [|k]; [reflexivity |].
    change (stride2 (x :: y :: l)) with (x :: stride2 l).
    replace (2 * Datatypes.S k)%nat
      with (Datatypes.S (Datatypes.S (2 * k))) by lia.
    simpl nth. apply IH.
Qed.

Lemma nth_stride2_tl {A : Type} (l : list A) (k : nat) (d : A) :
  nth k (stride2 (tl l)) d = nth (2 * k + 1) l d.
Proof.
  rewrite nth_stride2. destruct l as [|x l]; simpl.
  - destruct (k + (k + 0))%nat; destruct (k + (k + 0) + 1)%nat; reflexivity.
  - replace (k + (k + 0) + 1)%nat with (Datatypes.S (k + (k + 0))) by lia.
    reflexivity.
Qed.

Lemma flatten_length (n : Z) (S : lattice) :
  is_square n S = true -> Z.of_nat (length (flatten S)) = n * n.
Proof.
  unfold is_square, flatten. intros H. apply andb_prop in H as [H1 H2].
  apply Z.eqb_eq in H1. rewrite <- H1 at 1. clear H1.
  induction S as [|r S IH]; [reflexivity |].
  cbn [concat forallb length] in *.
  apply andb_prop in H2 as [Hr H2]. rewrite length_app.
  specialize (IH H2). lia.
Qed.

(** The lengths of [flatten()[::2]] and [flatten()[1::2]]. *)
Lemma slice_lengths (n : Z) (S : lattice) :
  is_square n S = true ->
  Z.of_nat (length (stride2 (flatten S))) = (n * n + 1) / 2
  /\ Z.of_nat (length (stride2 (tl (flatten S)))) = n * n / 2.
Proof.
  intros Hsq. pose proof (flatten_length _ _ Hsq) as HL.
  destruct (stride2_lengths (flatten S)) as [Hsum Hcase].
  Z.to_euclidean_division_equations. lia.
Qed.

Lemma odd_square (n : Z) : Z.odd n = true -> (n * n) mod 2 = 1.
Proof.
  intros H. rewrite <- Z.bit0_mod, Z.bit0_odd, Z.odd_mul, H. reflexivity.
Qed.

Lemma even_square (n : Z) : Z.even n = true -> (n * n) mod 2 = 0.
Proof.
  intros H. apply Z.even_spec in H as [m ->].
  replace (2 * m * (2 * m)) with (2 * m * m * 2) by ring.
  apply Z.mod_mul. lia.
Qed.

(** [numpy.mean] of a non-empty array is a number. *)
Lemma np_mean_nonempty (l : list Z) :
  l <> [] ->
  np_mean l = Finite (inject_Z (sum l) / inject_Z (Z.of_nat (length l))).
Proof. destruct l; [congruence | reflexivity]. Qed.

Lemma map2_length {A B C : Type} (f : A -> B -> C) (a : list A) (b : list B) :
  length a = length b -> length (map2 f a b) = length a.
Proof.
  revert b; induction a as [|x a IH]; intros [|y b]; simpl; intros H;
    try congruence. f_equal. apply IH. congruence.
Qed.

(** The staggered observable on an even-sized lattice. *)
Lemma staggered_even (n : Z) (S : lattice) :
  is_square n S = true -> Z.even n = true -> 0 < n ->
  let a := stride2 (flatten S) in
  let b := stride2 (tl (flatten S)) in
  length a = length b /\ Z.of_nat (length a) = n * n / 2 /\ 0 < n * n / 2
  /\ staggered S =
     Ok (Finite (- (inject_Z (sum (map2 i64_mul a b))
                    / inject_Z (Z.of_nat (length a))))).
Proof.
  intros Hsq Hev Hn a b.
  destruct (slice_lengths _ _ Hsq) as [Ha Hb]. fold a in Ha. fold b in Hb.
  pose proof (even_square _ Hev) as Hmod.
  assert (Hab : length a = length b).
  { apply Nat2Z.inj. rewrite Ha, Hb.
    Z.to_euclidean_division_equations. lia. }
  assert (Hpos : 0 < n * n / 2).
  { apply Z.even_spec in Hev as [m ->].
    Z.to_euclidean_division_equations. nia. }
  split; [assumption |]. split; [lia |]. split; [assumption |].
  unfold staggered, np_multiply. fold a b.
  rewrite Hab, Nat.eqb_refl. cbn [bind].
  rewrite np_mean_nonempty.
  - rewrite map2_length by assumption. rewrite Hab. reflexivity.
  - intros E. apply (f_equal (@length Z)) in E.
    rewrite map2_length in E by assumption. simpl in E. lia.
Qed.

(** ** The staggered observable and the parity of N *)

(** C10, as claimed: for the odd size N = 1 the slices have one and zero
    elements; numpy broadcasts the one-element slice against the empty one,
    so the product does not raise. *)
Lemma staggered_single_site_no_error :
  Z.odd 1 = true /\ is_square 1 [[1]] = true
  /\ staggered [[1]] <> Raise ValueError.
Proof. repeat split. discriminate. Qed.

(** The outcome of the staggered observable, by the parity of the size. *)
Lemma staggered_cases (n : Z) (S : lattice) :
  is_square n S = true ->
  (Z.odd n = true ->
     Z.of_nat (length (stride2 (flatten S))) = (n * n + 1) / 2
     /\ Z.of_nat (length (stride2 (tl (flatten S)))) = (n * n - 1) / 2)
  /\ (Z.odd n = true -> 3 <= n -> staggered S = Raise ValueError)
  /\ (n = 1 -> staggered S = Ok NaN)
  /\ (Z.even n = true -> 0 < n -> exists q, staggered S = Ok (Finite q)).
Proof.
  intros Hsq. destruct (slice_lengths _ _ Hsq) as [Ha Hb].
  split; [| split; [| split]].
  - intros Hodd. pose proof (odd_square _ Hodd).
    split; [assumption |]. rewrite Hb.
    Z.to_euclidean_division_equations. lia.
  - intros Hodd Hn. pose proof (odd_square _ Hodd) as Hmod.
    assert (H9 : 9 <= n * n) by nia.
    unfold staggered, np_multiply.
    replace (length (stride2 (flatten S)) =? length (stride2 (tl (flatten S))))%nat
      with false
      by (symmetry; apply Nat.eqb_neq; intros E; rewrite E in Ha;
          Z.to_euclidean_division_equations; lia).
    replace (length (stride2 (flatten S)) =? 1)%nat with false
      by (symmetry; apply Nat.eqb_neq; intros E; rewrite E in Ha;
          Z.to_euclidean_division_equations; lia).
    replace (length (stride2 (tl (flatten S))) =? 1)%nat with false
      by (symmetry; apply Nat.eqb_neq; intros E; rewrite E in Hb;
          Z.to_euclidean_division_equations; lia).
    reflexivity.
  - intros ->. pose proof (is_square_length _ _ Hsq) as HS.
    pose proof (is_square_row 1 S 0 Hsq ltac:(lia)) as Hr.
    destruct S as [|r [|r' S]]; cbn [length] in HS; try lia.
    cbn [nth] in Hr.
    destruct r as [|x [|y r]]; cbn [length] in Hr; try lia. reflexivity.
  - intros Hev Hn.
    destruct (staggered_even _ _ Hsq Hev Hn) as [_ [_ [_ E]]]. eauto.
Qed.

(** C10, amended: on an N x N lattice with N odd, the even-indexed slice of
    the flattening has (N*N+1)/2 elements and the odd-indexed slice
    (N*N-1)/2; for odd N >= 3 their product raises ValueError; for N = 1 the
    product is the empty array and the observable is NaN, without an error;
    for even N > 0 the observable is a number. *)
Theorem staggered_by_parity (n : Z) (S : lattice) :
  is_square n S = true ->
  (Z.odd n = true ->
     Z.of_nat (length (stride2 (flatten S))) = (n * n + 1) / 2
     /\ Z.of_nat (length (stride2 (tl (flatten S)))) = (n * n - 1) / 2)
  /\ (Z.odd n = true -> 3 <= n -> staggered S = Raise ValueError)
  /\ (n = 1 -> staggered S = Ok NaN)
  /\ (Z.even n = true -> 0 < n -> exists q, staggered S = Ok (Finite q)).
Proof. apply staggered_cases. Qed.

Lemma staggered_by_parity_witness :
  (Z.odd 3 = true ->
     Z.of_nat (length (stride2 (flatten [[1; 1; 1]; [1; -1; 1]; [1; 1; 1]])))
     = (3 * 3 + 1) / 2
     /\ Z.of_nat (length (stride2 (tl (flatten [[1; 1; 1]; [1; -1; 1]; [1; 1; 1]]))))
        = (3 * 3 - 1) / 2)
  /\ (Z.odd 3 = true -> 3 <= 3 ->
      staggered [[1; 1; 1]; [1; -1; 1]; [1; 1; 1]] = Raise ValueError)
  /\ (3 = 1 -> staggered [[1; 1; 1]; [1; -1; 1]; [1; 1; 1]] = Ok NaN)
  /\ (Z.even 3 = true -> 0 < 3 ->
      exists q, staggered [[1; 1; 1]; [1; -1; 1]; [1; 1; 1]] = Ok (Finite q)).
Proof.
  apply (staggered_by_parity 3 [[1; 1; 1]; [1; -1; 1]; [1; 1; 1]]).
  reflexivity.
Defined.

(** ** One iteration *)

Lemma staggered_total (n : Z) (S : lattice) :
  is_square n S = true -> staggered_defined n = true -> 0 < n ->
  exists s, staggered S = Ok s.
Proof.
  intros Hsq Hdef Hn. unfold staggered_defined in Hdef.
  destruct (staggered_cases n S Hsq) as [_ [_ [H1 Hev]]].
  apply orb_prop in Hdef as [H | H].
  - destruct (Hev H Hn) as [q E]. eauto.
  - apply Z.eqb_eq in H. eauto.
Qed.

Lemma setitem_nonneg {A : Type} (l l' : list A) (i : Z) (x : A) :
  setitem l i x = Ok l' -> 0 <= i ->
  l' = list_set l (Z.to_nat i) x /\ i < Z.of_nat (length l).
Proof.
  unfold setitem, index. intros H Hi.
  destruct ((0 <=? i) && (i <? Z.of_nat (length l))) eqn:E1.
  - simpl in H. injection H as <-. split; [reflexivity | lia].
  - replace ((- Z.of_nat (length l) <=? i) && (i <? 0)) with false in H by lia.
    discriminate H.
Qed.

Lemma record_observables_in_range (n idx : Z) (S : lattice)
    (m ms : list (float * float)) :
  is_square n S = true -> staggered_defined n = true -> 0 < n ->
  0 <= idx < Z.of_nat (length m) -> 0 <= idx < Z.of_nat (length ms) ->
  exists s,
    staggered S = Ok s
    /\ record_observables idx S m ms =
       Ok {| spins := S;
             M := list_set m (Z.to_nat idx) (Finite (inject_Z idx), magnetization S);
             MS := list_set ms (Z.to_nat idx) (Finite (inject_Z idx), s) |}.
Proof.
  intros Hsq Hdef Hn Hm Hms.
  destruct (staggered_total _ _ Hsq Hdef Hn) as [s E].
  exists s. split; [assumption |]. unfold record_observables.
  rewrite setitem_in_range by assumption. cbn [bind]. rewrite E. cbn [bind].
  rewrite setitem_in_range by assumption. reflexivity.
Qed.

(** What a successful [record_observables] wrote. *)
Lemma record_observables_ok (idx : Z) (S : lattice)
    (m ms : list (float * float)) (st : state) :
  record_observables idx S m ms = Ok st -> 0 <= idx ->
  exists s,
    staggered S = Ok s
    /\ idx < Z.of_nat (length m) /\ idx < Z.of_nat (length ms)
    /\ st = {| spins := S;
               M := list_set m (Z.to_nat idx) (Finite (inject_Z idx), magnetization S);
               MS := list_set ms (Z.to_nat idx) (Finite (inject_Z idx), s) |}.
Proof.
  unfold record_observables. intros H Hidx.
  apply bind_ok in H as [m' [Em H]].
  apply bind_ok in H as [s [Es H]].
  apply bind_ok in H as [ms' [Ems H]].
  apply setitem_nonneg in Em as [-> Hm]; [| assumption].
  apply setitem_nonneg in Ems as [-> Hms]; [| assumption].
  injection H as <-. eauto.
Qed.

Section Run.

Context {G : Type} {RS : RandomState G}.
Variable exp : Q -> Q.

Lemma step_ok (p : params) (idx : Z) (st st' : state) (g g' : G) :
  step exp p idx st g = Ok (st', g') -> 0 <= idx ->
  exists s,
    metropolis exp p (spins st) g = Ok (spins st', g')
    /\ staggered (spins st') = Ok s
    /\ idx < Z.of_nat (length (M st)) /\ idx < Z.of_nat (length (MS st))
    /\ M st' = list_set (M st) (Z.to_nat idx)
                 (Finite (inject_Z idx), magnetization (spins st'))
    /\ MS st' = list_set (MS st) (Z.to_nat idx) (Finite (inject_Z idx), s).
Proof.
  unfold step. intros H Hidx.
  apply bind_ok in H as [[S1 g1] [Emet H]].
  apply bind_ok in H as [st1 [Erec H]].
  injection H as <- <-.
  apply record_observables_ok in Erec as [s [Es [Hm [Hms ->]]]]; [| assumption].
  exists s. simpl. repeat split; assumption || reflexivity.
Qed.

Lemma step_total (p : params) (idx : Z) (st : state) (g : G) :
  0 < N p -> staggered_defined (N p) = true ->
  lattice_ok (N p) (spins st) = true ->
  0 <= idx < Z.of_nat (length (M st)) ->
  0 <= idx < Z.of_nat (length (MS st)) ->
  exists st' g',
    step exp p idx st g = Ok (st', g') /\ lattice_ok (N p) (spins st') = true.
Proof.
  intros Hn Hdef Hok Hm Hms. unfold step.
  destruct (metropolis_total exp p (spins st) g Hn Hok) as [S' [g' [E Hok']]].
  rewrite E. cbn [bind].
  destruct (record_observables_in_range (N p) idx S' (M st) (MS st))
    as [s [_ E']]; auto using lattice_ok_square.
  rewrite E'. cbn [bind]. eexists _, _. split; [reflexivity | assumption].
Qed.

(** Every iteration keeps a lattice of spins of the same size. *)
Lemma step_lattice (p : params) (idx : Z) (st st' : state) (g g' : G) :
  0 < N p -> lattice_ok (N p) (spins st) = true ->
  step exp p idx st g = Ok (st', g') -> 0 <= idx ->
  lattice_ok (N p) (spins st') = true.
Proof.
  intros Hn Hok H Hidx. apply step_ok in H as [s [E _]]; [| assumption].
  destruct (metropolis_total exp p (spins st) g Hn Hok) as [S' [g1 [E' Hok']]].
  rewrite E in E'. now injection E' as -> ->.
Qed.

(** Every iteration writes row [idx] of [M] and of [MS] and no other row. *)
Lemma step_frame (p : params) (idx : Z) (st st' : state) (g g' : G) :
  step exp p idx st g = Ok (st', g') -> 0 <= idx ->
  length (M st') = length (M st) /\ length (MS st') = length (MS st)
  /\ (exists v, nth_error (M st') (Z.to_nat idx) = Some (Finite (inject_Z idx), v))
  /\ (exists v, nth_error (MS st') (Z.to_nat idx) = Some (Finite (inject_Z idx), v))
  /\ forall k, k <> Z.to_nat idx ->
       nth_error (M st') k = nth_error (M st) k
       /\ nth_error (MS st') k = nth_error (MS st) k.
Proof.
  intros H Hidx.
  apply step_ok in H as [s [_ [_ [Hm [Hms [EM EMS]]]]]]; [| assumption].
  rewrite EM, EMS, !list_set_length.
  split; [reflexivity |]. split; [reflexivity |].
  split; [eexists; apply nth_error_list_set_same; lia |].
  split; [eexists; apply nth_error_list_set_same; lia |].
  intros k Hk. split; apply nth_error_list_set_other; congruence.
Qed.

(** ** The loop *)

Lemma loop_app (p : params) (a b : nat) (idx : Z) (st : state) (g : G) :
  loop exp p (a + b) idx st g =
  ('(st1, g1) <- loop exp p a idx st g ;;
   loop exp p b (idx + Z.of_nat a) st1 g1).
Proof.
  revert idx st g. induction a as [|a IH]; intros idx st g.
  - simpl. now rewrite Z.add_0_r.
  - cbn [loop Nat.add]. destruct (step exp p idx st g) as [[st1 g1]|e];
      cbn [bind]; [| reflexivity].
    rewrite IH. replace (idx + 1 + Z.of_nat a) with (idx + Z.of_nat (Datatypes.S a)) by lia.
    reflexivity.
Qed.

Lemma loop_total (p : params) (n : nat) (idx : Z) (st : state) (g : G) :
  0 < N p -> staggered_defined (N p) = true ->
  lattice_ok (N p) (spins st) = true ->
  0 <= idx ->
  idx + Z.of_nat n <= Z.of_nat (length (M st)) ->
  idx + Z.of_nat n <= Z.of_nat (length (MS st)) ->
  exists st' g', loop exp p n idx st g = Ok (st', g').
Proof.
  intros Hn Hdef. revert idx st g.
  induction n as [|n IH]; intros idx st g Hok Hidx Hm Hms.
  - simpl. eauto.
  - cbn [loop].
    destruct (step_total p idx st g Hn Hdef Hok) as [st1 [g1 [E Hok1]]];
      try lia.
    rewrite E. cbn [bind].
    destruct (step_frame _ _ _ _ _ _ E Hidx) as [L1 [L2 _]].
    apply IH; auto; lia.
Qed.

(** The loop keeps the lattice well-formed, keeps the sizes of [M] and [MS],
    writes the step index into the rows it visits and leaves the rows before
    its first index alone. *)
Lemma loop_ok (p : params) (n : nat) (idx : Z) (st st' : state) (g g' : G) :
  loop exp p n idx st g = Ok (st', g') -> 0 <= idx ->
  (0 < N p -> lattice_ok (N p) (spins st) = true ->
   lattice_ok (N p) (spins st') = true)
  /\ length (M st') = length (M st) /\ length (MS st') = length (MS st)
  /\ (forall k, (Z.to_nat idx <= k < Z.to_nat idx + n)%nat ->
        (exists v, nth_error (M st') k = Some (Finite (inject_Z (Z.of_nat k)), v))
        /\ (exists v, nth_error (MS st') k = Some (Finite (inject_Z (Z.of_nat k)), v)))
  /\ (forall k, (k < Z.to_nat idx)%nat ->
        nth_error (M st') k = nth_error (M st) k
        /\ nth_error (MS st') k = nth_error (MS st) k).
Proof.
  revert idx st g. induction n as [|n IH]; intros idx st g H Hidx.
  - simpl in H. injection H as <- <-.
    repeat split; auto; intros; lia.
  - cbn [loop] in H. apply bind_ok in H as [[st1 g1] [E H]].
    destruct (step_frame _ _ _ _ _ _ E Hidx) as [L1 [L2 [W1 [W2 F]]]].
    destruct (IH _ _ _ H ltac:(lia)) as [I1 [I2 [I3 [I4 I5]]]].
    split; [| split; [| split; [| split]]].
    + intros Hn Hok. apply I1; [assumption |].
      eapply step_lattice; eauto.
    + congruence.
    + congruence.
    + intros k Hk. destruct (Nat.eq_dec k (Z.to_nat idx)) as [->|Hne].
      * destruct (I5 (Z.to_nat idx) ltac:(lia)) as [-> ->].
        rewrite Z2Nat.id by assumption. auto.
      * apply I4. lia.
    + intros k Hk. destruct (I5 k ltac:(lia)) as [-> ->].
      apply F. lia.
Qed.

End Run.

(** ** The acceptance rule *)

Section Acceptance.

Context {G : Type} {RS : RandomState G}.
Variable exp : Q -> Q.

Lemma accept_downhill (p : params) (dE : Q) (g : G) :
  (dE < 0)%Q -> accept exp p dE g = (true, g).
Proof.
  intros H. unfold accept. apply Qltb_lt in H. now rewrite H.
Qed.

Lemma accept_uphill (p : params) (dE : Q) (g : G) :
  (0 <= dE)%Q -> ~ (kBT p == 0)%Q ->
  accept exp p dE g =
  (Qltb (fst (random g)) (exp (- dE / kBT p)), snd (random g)).
Proof.
  intros H Hk. unfold accept. apply Qltb_ge in H. rewrite H.
  destruct (random g) as [u g']. simpl. unfold true_divide.
  destruct (Qeq_bool (kBT p) 0) eqn:E; [| reflexivity].
  apply Qeq_bool_eq in E. contradiction.
Qed.

(** The flip attempt, case by case. *)
Lemma metropolis_rule (p : params) (S : lattice) (g : G) :
  0 < N p -> lattice_ok (N p) S = true -> ~ (kBT p == 0)%Q ->
  let i := fst (randint 0 (N p) g) in
  let g1 := snd (randint 0 (N p) g) in
  let j := fst (randint 0 (N p) g1) in
  let g2 := snd (randint 0 (N p) g1) in
  let u := fst (random g2) in
  let g3 := snd (random g2) in
  (0 <= i < N p /\ 0 <= j < N p)
  /\ returns (deltaE p S i j) (fun dE =>
       ((dE < 0)%Q ->
        exists S', metropolis exp p S g = Ok (S', g2) /\ flipped_at S S' (N p) i j)
       /\ ((0 <= dE)%Q -> (u < exp (- dE / kBT p))%Q ->
           exists S', metropolis exp p S g = Ok (S', g3) /\ flipped_at S S' (N p) i j)
       /\ ((0 <= dE)%Q -> ~ (u < exp (- dE / kBT p))%Q ->
           metropolis exp p S g = Ok (S, g3))).
Proof.
  intros Hn Hok Hk i g1 j g2 u g3.
  destruct (np_randint2_pos (N p) g Hn) as [E [Hi Hj]].
  fold i g1 j g2 in E, Hi, Hj.
  split; [auto |]. eexists. split.
  { apply deltaE_value; auto using lattice_ok_square, lattice_ok_cells. }
  set (dE := (inject_Z (-2) * _)%Q).
  assert (Ed : deltaE p S i j = Ok dE)
    by (apply deltaE_value; auto using lattice_ok_square, lattice_ok_cells).
  destruct (flip_in_range _ _ _ _ Hok Hi Hj) as [S' [Ef [_ Hfl]]].
  unfold metropolis. rewrite E. cbn [bind]. rewrite Ed. cbn [bind].
  split; [| split].
  - intros Hlt. rewrite accept_downhill by assumption.
    rewrite Ef. cbn [bind]. eauto.
  - intros Hge Hu. rewrite accept_uphill by assumption. fold u g3.
    apply Qltb_lt in Hu. rewrite Hu, Ef. cbn [bind]. eauto.
  - intros Hge Hu. rewrite accept_uphill by assumption. fold u g3.
    destruct (Qltb u (exp (- dE / kBT p))) eqn:Eu; [| reflexivity].
    apply Qltb_lt in Eu. contradiction.
Qed.

(** C2: a call of [step] on a lattice of spins picks the site (i, j) with
    two draws of randint(0, N), computes [deltaE] there, and flips when the
    value is negative (drawing nothing more); otherwise it draws one number
    u in [0, 1) and flips exactly when u < exp(-dE / kBT).  A flip negates
    the spin at (i, j) and leaves every other cell as it was; without a flip
    the lattice is the same. *)
Theorem step_metropolis_rule (p : params) (idx : Z) (st : state) (g : G) :
  0 < N p -> staggered_defined (N p) = true ->
  lattice_ok (N p) (spins st) = true -> ~ (kBT p == 0)%Q ->
  0 <= idx < Z.of_nat (length (M st)) ->
  0 <= idx < Z.of_nat (length (MS st)) ->
  let i := fst (randint 0 (N p) g) in
  let g1 := snd (randint 0 (N p) g) in
  let j := fst (randint 0 (N p) g1) in
  let g2 := snd (randint 0 (N p) g1) in
  let u := fst (random g2) in
  let g3 := snd (random g2) in
  (0 <= i < N p /\ 0 <= j < N p)
  /\ ((0 <= u)%Q /\ (u < 1)%Q)
  /\ returns (deltaE p (spins st) i j) (fun dE =>
       ((dE < 0)%Q ->
        returns (step exp p idx st g) (fun r =>
          flipped_at (spins st) (spins (fst r)) (N p) i j /\ snd r = g2))
       /\ ((0 <= dE)%Q -> (u < exp (- dE / kBT p))%Q ->
           returns (step exp p idx st g) (fun r =>
             flipped_at (spins st) (spins (fst r)) (N p) i j /\ snd r = g3))
       /\ ((0 <= dE)%Q -> ~ (u < exp (- dE / kBT p))%Q ->
           returns (step exp p idx st g) (fun r =>
             spins (fst r) = spins st /\ snd r = g3))).
Proof.
  intros Hn Hdef Hok Hk Hm Hms i g1 j g2 u g3.
  destruct (metropolis_rule p (spins st) g Hn Hok Hk)
    as [Hij [dE [Ed [R1 [R2 R3]]]]].
  fold i g1 j g2 u g3 in Hij, Ed, R1, R2, R3.
  split; [assumption |]. split; [apply random_range |].
  exists dE. split; [assumption |].
  assert (Hrec : forall S' g', is_square (N p) S' = true ->
            metropolis exp p (spins st) g = Ok (S', g') ->
            exists st', step exp p idx st g = Ok (st', g') /\ spins st' = S').
  { intros S' g' Hsq E. unfold step. rewrite E. cbn [bind].
    destruct (record_observables_in_range (N p) idx S' (M st) (MS st))
      as [s [_ E']]; auto.
    rewrite E'. cbn [bind]. eexists. split; reflexivity. }
  split; [| split].
  - intros Hlt. destruct (R1 Hlt) as [S' [E Hfl]].
    destruct (Hrec S' g2 (proj1 Hfl) E) as [st' [Es <-]].
    exists (st', g2). auto.
  - intros Hge Hu. destruct (R2 Hge Hu) as [S' [E Hfl]].
    destruct (Hrec S' g3 (proj1 Hfl) E) as [st' [Es <-]].
    exists (st', g3). auto.
  - intros Hge Hu. pose proof (R3 Hge Hu) as E.
    destruct (Hrec (spins st) g3 (lattice_ok_square _ _ Hok) E) as [st' [Es Hs]].
    exists (st', g3). auto.
Qed.

End Acceptance.

(** ** Initialisation *)

Section Initialisation.

Context {G : Type} {RS : RandomState G}.
Variable exp : Q -> Q.

Lemma random_row_length (n : nat) (g : G) :
  length (fst (random_row n g)) = n.
Proof.
  revert g. induction n as [|n IH]; intros g; simpl; [reflexivity |].
  destruct (random g) as [u g1]. specialize (IH g1).
  destruct (random_row n g1) as [us g2]. simpl in *. congruence.
Qed.

Lemma random_rows_shape (r c : nat) (g : G) :
  length (fst (random_rows r c g)) = r
  /\ forallb (fun row => (length row =? c)%nat) (fst (random_rows r c g)) = true.
Proof.
  revert g. induction r as [|r IH]; intros g; simpl; [auto |].
  pose proof (random_row_length c g) as Hrow.
  destruct (random_row c g) as [row g1]. specialize (IH g1).
  destruct (random_rows r c g1) as [rows g2]. simpl in *.
  destruct IH as [IH1 IH2]. rewrite IH1, IH2, Hrow, Nat.eqb_refl. auto.
Qed.

Lemma forallb_map_compose {A B : Type} (f : B -> bool) (h : A -> B) (l : list A) :
  forallb f (map h l) = forallb (fun x => f (h x)) l.
Proof.
  induction l as [|x l IH]; simpl; [reflexivity | now rewrite IH].
Qed.

(** [numpy.where(a > 0.5, 1, -1)] is a lattice of spins with the shape of
    [a]. *)
Lemma where_gt_half_ok (n : nat) (a : list (list Q)) :
  length a = n -> forallb (fun row => (length row =? n)%nat) a = true ->
  lattice_ok (Z.of_nat n) (where_gt_half a) = true.
Proof.
  intros Hlen Hrows. unfold lattice_ok, is_square, spin_valued, where_gt_half.
  rewrite length_map, Hlen, Z.eqb_refl. simpl.
  rewrite !forallb_map_compose. apply andb_true_intro. split.
  - rewrite forallb_forall in *. intros row Hin.
    specialize (Hrows row Hin). rewrite length_map.
    apply Nat.eqb_eq in Hrows. rewrite Hrows. apply Z.eqb_refl.
  - apply forallb_forall. intros row _. rewrite forallb_map_compose.
    apply forallb_forall. intros u _. destruct (Qltb (1 # 2) u); reflexivity.
Qed.

(** The random lattice: for N >= 0 its creation cannot fail. *)
Lemma random_lattice_ok (n : Z) (g : G) :
  0 <= n ->
  exists a g',
    np_random2 n n g = Ok (a, g')
    /\ lattice_ok n (where_gt_half a) = true.
Proof.
  intros Hn. unfold np_random2.
  replace ((n <? 0) || (n <? 0)) with false by lia.
  destruct (random_rows_shape (Z.to_nat n) (Z.to_nat n) g) as [H1 H2].
  destruct (random_rows (Z.to_nat n) (Z.to_nat n) g) as [a g'].
  exists a, g'. split; [reflexivity |].
  rewrite <- (Z2Nat.id n) at 1 by assumption.
  now apply where_gt_half_ok.
Qed.

Lemma np_zeros2_ok (n : Z) :
  0 <= n -> np_zeros2 n = Ok (repeat (Finite 0, Finite 0) (Z.to_nat n)).
Proof.
  intros H. unfold np_zeros2. now replace (n <? 0) with false by lia.
Qed.

(** A negative N is refused by the allocation of the random array. *)
Lemma init_negative_size (p : params) (g : G) :
  N p < 0 -> init p g = Raise ValueError.
Proof.
  intros H. unfold init, np_random2.
  now replace ((N p <? 0) || (N p <? 0)) with true by lia.
Qed.

(** With [Steps = 0] the arrays [M] and [MS] have no row, and seeding
    [M[0]] raises IndexError. *)
Lemma init_zero_steps (p : params) (g : G) :
  0 <= N p -> Steps p = 0 -> init p g = Raise IndexError.
Proof.
  intros Hn Hs. unfold init.
  destruct (random_lattice_ok (N p) g Hn) as [a [g' [E _]]].
  rewrite E. cbn [bind]. rewrite Hs. reflexivity.
Qed.

(** What a successful initialisation built. *)
Lemma init_ok (p : params) (g g' : G) (st : state) :
  init p g = Ok (st, g') ->
  lattice_ok (N p) (spins st) = true
  /\ Z.of_nat (length (M st)) = Steps p
  /\ Z.of_nat (length (MS st)) = Steps p
  /\ 1 <= Steps p
  /\ exists s,
       staggered (spins st) = Ok s
       /\ nth_error (M st) 0 = Some (Finite 0, magnetization (spins st))
       /\ nth_error (MS st) 0 = Some (Finite 0, s).
Proof.
  unfold init. intros H.
  apply bind_ok in H as [[a g1] [Ea H]].
  apply bind_ok in H as [m [Em H]].
  apply bind_ok in H as [ms [Ems H]].
  apply bind_ok in H as [m' [Em' H]].
  apply bind_ok in H as [s [Es H]].
  apply bind_ok in H as [ms' [Ems' H]].
  injection H as <- <-. cbn [spins M MS].
  assert (Hn : 0 <= N p).
  { unfold np_random2 in Ea.
    destruct ((N p <? 0) || (N p <? 0)) eqn:E; [discriminate | lia]. }
  assert (Hs : 0 <= Steps p).
  { unfold np_zeros2 in Em. destruct (Steps p <? 0) eqn:E; [discriminate | lia]. }
  destruct (random_lattice_ok (N p) g Hn) as [a' [g2 [Ea' Hok]]].
  rewrite Ea in Ea'. injection Ea' as <- <-.
  rewrite np_zeros2_ok in Em, Ems by assumption.
  injection Em as <-. injection Ems as <-.
  apply setitem_nonneg in Em' as [-> Hm]; [| lia].
  apply setitem_nonneg in Ems' as [-> Hms]; [| lia].
  rewrite repeat_length in Hm.
  rewrite !list_set_length, !repeat_length.
  split; [assumption |]. split; [lia |]. split; [lia |]. split; [lia |].
  exists s. split; [assumption |].
  split; apply nth_error_list_set_same; rewrite repeat_length; lia.
Qed.

(** Initialisation succeeds when there is at least one step and the slices
    of the staggered observable can be multiplied. *)
Lemma init_total (p : params) (g : G) :
  0 < N p -> staggered_defined (N p) = true -> 1 <= Steps p ->
  exists st g', init p g = Ok (st, g').
Proof.
  intros Hn Hdef Hs. unfold init.
  destruct (random_lattice_ok (N p) g ltac:(lia)) as [a [g' [E Hok]]].
  rewrite E. cbn [bind]. rewrite np_zeros2_ok by lia. cbn [bind].
  rewrite setitem_in_range by (rewrite repeat_length; lia). cbn [bind].
  destruct (staggered_total (N p) (where_gt_half a)) as [s Es];
    auto using lattice_ok_square.
  rewrite Es. cbn [bind].
  rewrite setitem_in_range by (rewrite repeat_length; lia). cbn [bind].
  eauto.
Qed.

(** Initialisation does not read [kBT]. *)
Lemma init_ignores_kBT (p : params) (t : Q) (g : G) :
  init (with_kBT p t) g = init p g.
Proof. reflexivity. Qed.

(** ** The run *)

(** C3: for N > 0 the random initial lattice is an N x N array of +1 and
    -1; the flip attempt of a step never fails on such a lattice and yields
    such a lattice again; hence the lattice is N x N with entries +1 or -1
    after any number of executed steps. *)
Theorem lattice_invariant (p : params) (g : G) :
  0 < N p ->
  (exists a g', np_random2 (N p) (N p) g = Ok (a, g')
                /\ lattice_ok (N p) (where_gt_half a) = true)
  /\ (forall S g0, lattice_ok (N p) S = true ->
        exists S' g', metropolis exp p S g0 = Ok (S', g')
                      /\ lattice_ok (N p) S' = true)
  /\ (forall k st g', run_prefix exp p k g = Ok (st, g') ->
        is_square (N p) (spins st) = true
        /\ forall a b, 0 <= a < N p -> 0 <= b < N p ->
             cell (spins st) a b = 1 \/ cell (spins st) a b = -1).
Proof.
  intros Hn. split; [apply random_lattice_ok; lia |].
  split; [intros S g0 Hok; now apply metropolis_total |].
  intros k st g' H. unfold run_prefix in H.
  apply bind_ok in H as [[st0 g0] [E0 H]].
  apply init_ok in E0 as [Hok0 _].
  apply loop_ok in H as [Hok _]; [| lia].
  specialize (Hok Hn Hok0).
  split; [now apply lattice_ok_square |].
  intros a b Ha Hb. apply is_spin_cases. now apply (cell_is_spin (N p)).
Qed.

(** C5, amended: nothing validates the configuration.  A negative N makes
    the initialisation fail, before any step; the initialisation does not
    depend on kBT, so no value of kBT is rejected; and for N > 0 no error
    arises in the loop, whatever kBT is: once the initialisation succeeded,
    all [Steps] iterations do, and the initialisation succeeds when there
    is at least one step and N admits the staggered observable. *)
Theorem no_error_in_loop (p : params) (g : G) :
  (N p < 0 -> init p g = Raise ValueError)
  /\ (forall t, init (with_kBT p t) g = init p g)
  /\ (0 < N p -> forall st g', init p g = Ok (st, g') ->
        exists st' g'', loop exp p (Z.to_nat (Steps p)) 0 st g' = Ok (st', g'')
                        /\ main exp p g = Ok (st', g''))
  /\ (0 < N p -> staggered_defined (N p) = true -> 1 <= Steps p ->
      exists r, main exp p g = Ok r).
Proof.
  split; [apply init_negative_size |].
  split; [intros t; apply init_ignores_kBT |].
  assert (Hloop : 0 < N p -> forall st g', init p g = Ok (st, g') ->
            exists st' g'', loop exp p (Z.to_nat (Steps p)) 0 st g' = Ok (st', g'')
                            /\ main exp p g = Ok (st', g'')).
  { intros Hn st g' E.
    pose proof (init_ok _ _ _ _ E) as [Hok [Hm [Hms [Hs [s [Es _]]]]]].
    assert (Hdef : staggered_defined (N p) = true).
    { unfold staggered_defined. destruct (Z.even (N p)) eqn:Hev; [reflexivity |].
      destruct (Z.eqb_spec (N p) 1) as [|Hne]; [reflexivity |].
      destruct (staggered_cases (N p) (spins st) (lattice_ok_square _ _ Hok))
        as [_ [Hodd _]].
      assert (N p <> 2) by (intros E2; rewrite E2 in Hev; discriminate).
      rewrite Hodd in Es; [discriminate | | lia].
      rewrite <- Z.negb_even, Hev. reflexivity. }
    destruct (loop_total exp p (Z.to_nat (Steps p)) 0 st g') as [st' [g'' E']];
      auto; try lia.
    exists st', g''. split; [assumption |].
    unfold main, run_prefix. rewrite E. cbn [bind]. assumption. }
  split; [assumption |].
  intros Hn Hdef Hs. destruct (init_total p g Hn Hdef Hs) as [st [g' E]].
  destruct (Hloop Hn st g' E) as [st' [g'' [_ Em]]]. eauto.
Qed.

(** C6: with [Steps = 0] the cell does not complete: the arrays [M] and
    [MS] have shape (0, 2) and the seeding of [M[0]] raises IndexError. *)
Theorem main_zero_steps (p : params) (g : G) :
  0 <= N p -> Steps p = 0 -> main exp p g = Raise IndexError.
Proof.
  intros Hn Hs. unfold main, run_prefix.
  rewrite init_zero_steps by assumption. reflexivity.
Qed.

End Initialisation.

(** ** The observables against their specification *)

Lemma float_eq_refl (x : float) : float_eq x x.
Proof. destruct x; simpl; auto. reflexivity. Qed.

Lemma sum_upto_ext (m : nat) (f h : nat -> Z) :
  (forall k, (k < m)%nat -> f k = h k) -> sum_upto m f = sum_upto m h.
Proof.
  induction m as [|m IH]; intros H; simpl; [reflexivity |].
  rewrite IH, H by auto with arith. reflexivity.
Qed.

Lemma sum_upto_shift (m : nat) (f : nat -> Z) :
  sum_upto (Datatypes.S m) f = f 0%nat + sum_upto m (fun k => f (Datatypes.S k)).
Proof.
  induction m as [|m IH]; [simpl; lia |].
  change (sum_upto (Datatypes.S (Datatypes.S m)) f)
    with (sum_upto (Datatypes.S m) f + f (Datatypes.S m)).
  rewrite IH. simpl. lia.
Qed.

Lemma sum_app (a b : list Z) : sum (a ++ b) = sum a + sum b.
Proof.
  induction a as [|x a IH]; simpl; [reflexivity |].
  unfold sum in *. simpl. lia.
Qed.

Lemma sum_nth (l : list Z) :
  sum l = sum_upto (length l) (fun k => nth k l 0).
Proof.
  induction l as [|x l IH]; [reflexivity |].
  cbn [length]. rewrite sum_upto_shift. cbn [nth].
  rewrite <- IH. reflexivity.
Qed.

Lemma sum_concat (S : lattice) :
  sum (concat S) = sum_upto (length S) (fun i => sum (nth i S [])).
Proof.
  induction S as [|r S IH]; [reflexivity |].
  cbn [length concat]. rewrite sum_app, sum_upto_shift. cbn [nth].
  rewrite <- IH. reflexivity.
Qed.

(** Element [m] of the flattening is cell [(m / c, m mod c)]. *)
Lemma nth_concat (c : nat) (S : lattice) (m : nat) :
  (0 < c)%nat -> (forall r, In r S -> length r = c) ->
  (m < length S * c)%nat ->
  nth m (concat S) 0 = nth (m mod c) (nth (m / c) S []) 0.
Proof.
  intros Hc. revert m. induction S as [|r S IH]; intros m Hrows Hm.
  - simpl in Hm. lia.
  - cbn [concat]. assert (Hr : length r = c) by (apply Hrows; now left).
    destruct (Nat.lt_ge_cases m c) as [Hlt | Hge].
    + rewrite app_nth1 by lia.
      rewrite Nat.div_small, Nat.mod_small by assumption. reflexivity.
    + rewrite app_nth2 by lia. rewrite Hr.
      replace m with (1 * c + (m - c))%nat at 2 3 by lia.
      rewrite Nat.div_add_l by lia.
      rewrite Nat.add_comm, Nat.Div0.mod_add.
      cbn [Nat.add nth]. apply IH.
      * intros r' Hin. apply Hrows. now right.
      * cbn [length] in Hm. lia.
Qed.

Lemma is_square_rows (n : Z) (S : lattice) :
  is_square n S = true -> forall r, In r S -> length r = Z.to_nat n.
Proof.
  unfold is_square. intros H r Hin. apply andb_prop in H as [_ H].
  rewrite forallb_forall in H. specialize (H r Hin). lia.
Qed.

Lemma nth_flatten (n : Z) (S : lattice) (m : nat) :
  is_square n S = true -> 0 < n -> Z.of_nat m < n * n ->
  nth m (flatten S) 0 = flat_at n S (Z.of_nat m)
  /\ 0 <= Z.of_nat m / n < n /\ 0 <= Z.of_nat m mod n < n.
Proof.
  intros Hsq Hn Hm. pose proof (is_square_length _ _ Hsq) as Hlen.
  pose proof (is_square_rows _ _ Hsq) as Hrows.
  unfold flatten, flat_at, cell.
  remember (Z.to_nat n) as c eqn:Hc.
  assert (En : n = Z.of_nat c) by lia. rewrite En in *. clear En Hc Hsq.
  rewrite (nth_concat c); [| lia | assumption | nia].
  rewrite <- Nat2Z.inj_div, <- Nat2Z.inj_mod, !Nat2Z.id.
  split; [reflexivity |].
  assert (m / c < c)%nat by (apply Nat.Div0.div_lt_upper_bound; nia).
  pose proof (Nat.mod_upper_bound m c ltac:(lia)). lia.
Qed.

(** [numpy.mean(spins)] is the arithmetic mean of the N x N cells. *)
Lemma magnetization_spec (n : Z) (S : lattice) :
  is_square n S = true -> 0 < n ->
  magnetization S = spec_mean_magnetization n S.
Proof.
  intros Hsq Hn. pose proof (is_square_length _ _ Hsq) as Hlen.
  pose proof (flatten_length _ _ Hsq) as HL.
  unfold magnetization, spec_mean_magnetization.
  replace (n * n =? 0) with false by nia.
  rewrite np_mean_nonempty
    by (intros E; rewrite E in HL; simpl in HL; nia).
  rewrite HL. do 3 f_equal. unfold flatten. rewrite sum_concat.
  replace (length S) with (Z.to_nat n) by lia.
  apply sum_upto_ext. intros i Hi. rewrite sum_nth.
  replace (length (nth i S [])) with (Z.to_nat n)
    by (symmetry; apply (is_square_rows n S Hsq), nth_In; lia).
  apply sum_upto_ext. intros j Hj. unfold cell. now rewrite !Nat2Z.id.
Qed.

Lemma nth_map2 {A B : Type} (f : A -> B -> Z) (a : list A) (b : list B)
    (k : nat) (da : A) (db : B) :
  (k < length a)%nat -> (k < length b)%nat ->
  nth k (map2 f a b) 0 = f (nth k a da) (nth k b db).
Proof.
  revert b k. induction a as [|x a IH]; intros [|y b] [|k]; simpl;
    intros Ha Hb; try lia; auto. apply IH; lia.
Qed.

(** The staggered observable is the negated mean of the products of
    consecutive pairs of the flattening. *)
Lemma staggered_spec (n : Z) (S : lattice) :
  lattice_ok n S = true -> 0 < n -> staggered_defined n = true ->
  staggered S = Ok (spec_staggered n S).
Proof.
  intros Hok Hn Hdef. pose proof (lattice_ok_square _ _ Hok) as Hsq.
  unfold staggered_defined in Hdef. destruct (Z.even n) eqn:Hev.
  - destruct (staggered_even _ _ Hsq Hev Hn) as [Hab [Ha [Hpos E]]].
    rewrite E. unfold spec_staggered.
    replace (n * n / 2 =? 0) with false by lia.
    rewrite Ha. do 5 f_equal.
    rewrite sum_nth, map2_length by assumption.
    assert (HL : length (stride2 (flatten S)) = Z.to_nat (n * n / 2)) by lia.
    rewrite HL. apply sum_upto_ext. intros k Hk.
    rewrite (nth_map2 _ _ _ _ 0 0) by lia.
    rewrite nth_stride2, nth_stride2_tl.
    pose proof (even_square _ Hev) as Hmod.
    assert (H2k : Z.of_nat (2 * k + 1) < n * n)
      by (Z.to_euclidean_division_equations; lia).
    destruct (nth_flatten n S (2 * k) Hsq Hn ltac:(lia)) as [-> [B1 B2]].
    destruct (nth_flatten n S (2 * k + 1) Hsq Hn H2k) as [-> [B3 B4]].
    replace (Z.of_nat (2 * k)) with (2 * Z.of_nat k) in * by lia.
    replace (Z.of_nat (2 * k + 1)) with (2 * Z.of_nat k + 1) in * by lia.
    unfold flat_at, i64_mul.
    pose proof (is_spin_cases _ (cell_is_spin _ _ _ _ Hok B1 B2)).
    pose proof (is_spin_cases _ (cell_is_spin _ _ _ _ Hok B3 B4)).
    apply wrap64_small. lia.
  - simpl in Hdef. apply Z.eqb_eq in Hdef. subst n.
    destruct (staggered_cases 1 S Hsq) as [_ [_ [H1 _]]].
    now rewrite H1.
Qed.

Section Observables.

Context {G : Type} {RS : RandomState G}.
Variable exp : Q -> Q.

(** C7: the row written by an iteration holds the step index, the
    arithmetic mean of all N x N values of the lattice left by the flip
    attempt, and the negated mean of the products of its even-indexed with
    its odd-indexed spins in row-major order; the rows seeded before the
    loop hold index 0 and the same two formulas on the initial lattice. *)
Theorem observables_formulas (p : params) (g : G) :
  0 < N p -> staggered_defined (N p) = true ->
  (1 <= Steps p -> returns (init p g) (fun r => observed_at p (fst r) 0))
  /\ (forall idx st g0,
        lattice_ok (N p) (spins st) = true ->
        0 <= idx < Z.of_nat (length (M st)) ->
        0 <= idx < Z.of_nat (length (MS st)) ->
        returns (step exp p idx st g0) (fun r => observed_at p (fst r) idx)).
Proof.
  intros Hn Hdef. split.
  - intros Hs. destruct (init_total p g Hn Hdef Hs) as [st [g' E]].
    exists (st, g'). split; [assumption |]. cbn [fst].
    apply init_ok in E as [Hok [_ [_ [_ [s [Es [EM EMS]]]]]]].
    rewrite (staggered_spec (N p)) in Es by assumption. injection Es as <-.
    exists (magnetization (spins st)), (spec_staggered (N p) (spins st)).
    rewrite (magnetization_spec (N p)) in * by auto using lattice_ok_square.
    repeat split; auto using float_eq_refl.
  - intros idx st g0 Hok Hm Hms.
    destruct (step_total exp p idx st g0 Hn Hdef Hok Hm Hms) as [st' [g' [E Hok']]].
    exists (st', g'). split; [assumption |]. cbn [fst].
    apply step_ok in E as [s [_ [Es [_ [_ [EM EMS]]]]]]; [| lia].
    rewrite (staggered_spec (N p)) in Es by assumption. injection Es as <-.
    exists (magnetization (spins st')), (spec_staggered (N p) (spins st')).
    rewrite EM, EMS.
    rewrite !nth_error_list_set_same by lia.
    rewrite (magnetization_spec (N p)) by auto using lattice_ok_square.
    repeat split; auto using float_eq_refl.
Qed.

End Observables.

(** ** The theorems on a concrete run *)

Lemma step_metropolis_rule_witness :
  let p := sample_params in
  let st := sample_state in
  let i := fst (randint 0 (N p) 7) in
  let g1 := snd (randint 0 (N p) 7) in
  let j := fst (randint 0 (N p) g1) in
  let g2 := snd (randint 0 (N p) g1) in
  let u := fst (random g2) in
  let g3 := snd (random g2) in
  (0 <= i < N p /\ 0 <= j < N p)
  /\ ((0 <= u)%Q /\ (u < 1)%Q)
  /\ returns (deltaE p (spins st) i j) (fun dE =>
       ((dE < 0)%Q ->
        returns (step sample_exp p 0 st 7) (fun r =>
          flipped_at (spins st) (spins (fst r)) (N p) i j /\ snd r = g2))
       /\ ((0 <= dE)%Q -> (u < sample_exp (- dE / kBT p))%Q ->
           returns (step sample_exp p 0 st 7) (fun r =>
             flipped_at (spins st) (spins (fst r)) (N p) i j /\ snd r = g3))
       /\ ((0 <= dE)%Q -> ~ (u < sample_exp (- dE / kBT p))%Q ->
           returns (step sample_exp p 0 st 7) (fun r =>
             spins (fst r) = spins st /\ snd r = g3))).
Proof.
  apply (step_metropolis_rule sample_exp sample_params 0 sample_state 7);
    [simpl; lia | reflexivity | reflexivity | discriminate
    | simpl; lia | simpl; lia].
Defined.

Lemma lattice_invariant_witness :
  (exists a g', np_random2 (N sample_params) (N sample_params) 7 = Ok (a, g')
                /\ lattice_ok (N sample_params) (where_gt_half a) = true)
  /\ (forall S g0, lattice_ok (N sample_params) S = true ->
        exists S' g', metropolis sample_exp sample_params S g0 = Ok (S', g')
                      /\ lattice_ok (N sample_params) S' = true)
  /\ (forall k st g', run_prefix sample_exp sample_params k 7 = Ok (st, g') ->
        is_square (N sample_params) (spins st) = true
        /\ forall a b, 0 <= a < N sample_params -> 0 <= b < N sample_params ->
             cell (spins st) a b = 1 \/ cell (spins st) a b = -1).
Proof.
  apply (lattice_invariant sample_exp sample_params 7). simpl; lia.
Defined.

(** C5, as claimed: with kBT = 0 the initialisation and the whole run
    succeed; nothing rejects the configuration. *)
Lemma nonpositive_kBT_not_rejected :
  (kBT cold_params <= 0)%Q
  /\ (exists r, init cold_params 12345 = Ok r)
  /\ (exists r, main sample_exp cold_params 12345 = Ok r).
Proof.
  split; [discriminate |].
  split; eexists; vm_compute; reflexivity.
Qed.

Lemma no_error_in_loop_witness :
  init negative_size_params 7 = Raise ValueError
  /\ (exists st' g'',
        loop sample_exp cold_params (Z.to_nat (Steps cold_params)) 0
          (fst (state_after_init cold_params 12345))
          (snd (state_after_init cold_params 12345)) = Ok (st', g'')
        /\ main sample_exp cold_params 12345 = Ok (st', g''))
  /\ exists r, main sample_exp cold_params 12345 = Ok r.
Proof.
  split; [| split].
  - apply (proj1 (no_error_in_loop sample_exp negative_size_params 7)).
    simpl; lia.
  - apply (proj1 (proj2 (proj2 (no_error_in_loop sample_exp cold_params 12345))));
      [simpl; lia | vm_compute; reflexivity].
  - apply (proj2 (proj2 (proj2 (no_error_in_loop sample_exp cold_params 12345))));
      [simpl; lia | reflexivity | simpl; lia].
Defined.

Lemma main_zero_steps_witness :
  main sample_exp no_steps_params 2018 = Raise IndexError.
Proof.
  apply (main_zero_steps sample_exp no_steps_params 2018);
    [simpl; lia | reflexivity].
Defined.

Lemma observables_formulas_witness :
  (1 <= Steps sample_params ->
   returns (init sample_params 7) (fun r => observed_at sample_params (fst r) 0))
  /\ (forall idx st g0,
        lattice_ok (N sample_params) (spins st) = true ->
        0 <= idx < Z.of_nat (length (M st)) ->
        0 <= idx < Z.of_nat (length (MS st)) ->
        returns (step sample_exp sample_params idx st g0)
          (fun r => observed_at sample_params (fst r) idx)).
Proof.
  apply (observables_formulas sample_exp sample_params 7);
    [simpl; lia | reflexivity].
Defined.

(** The rows seeded before the loop are placeholders: iteration 0 writes row
    0 again, here with another value. *)
Remark seeded_row_rewritten_by_first_iteration :
  nth_error (M (fst (state_after_init sample_params 7))) 0
    = Some (Finite 0, Finite (-2 # 4))
  /\ nth_error (M (fst (state_after sample_exp sample_params 1 7))) 0
     = Some (Finite 0, Finite (0 # 4)).
Proof. split; vm_compute; reflexivity. Qed.

(** * Further properties of the code *)

(** ** The domain of [deltaE] *)

Lemma index_outside (len i : Z) :
  ~ (- len <= i < len) -> index len i = Raise IndexError.
Proof.
  intros H. unfold index.
  replace ((0 <=? i) && (i <? len)) with false by lia.
  replace ((- len <=? i) && (i <? 0)) with false by lia. reflexivity.
Qed.

Lemma index_wrapped (len i : Z) :
  - len <= i < len -> index len i = Ok (Z.to_nat (i mod len)).
Proof.
  intros H. unfold index.
  destruct ((0 <=? i) && (i <? len)) eqn:E.
  - rewrite Z.mod_small by lia. reflexivity.
  - replace ((- len <=? i) && (i <? 0)) with true by lia.
    replace (i mod len) with (i + len); [reflexivity |].
    symmetry. rewrite <- (Z.mod_add i 1 len) by lia.
    rewrite Z.mod_small; lia.
Qed.

Lemma getitem_wrapped {A : Type} (l : list A) (i : Z) (d : A) :
  - Z.of_nat (length l) <= i < Z.of_nat (length l) ->
  getitem l i = Ok (nth (Z.to_nat (i mod Z.of_nat (length l))) l d).
Proof.
  intros H. unfold getitem. rewrite index_wrapped by assumption. cbn [bind].
  pose proof (Z.mod_pos_bound i (Z.of_nat (length l)) ltac:(lia)) as Hb.
  destruct (nth_error l _) as [x|] eqn:E.
  - now rewrite (nth_error_nth _ _ d E).
  - apply nth_error_None in E. lia.
Qed.

Lemma getitem_outside {A : Type} (l : list A) (i : Z) :
  ~ (- Z.of_nat (length l) <= i < Z.of_nat (length l)) ->
  getitem l i = Raise IndexError.
Proof.
  intros H. unfold getitem. now rewrite index_outside.
Qed.

(** [S[i, j]] on a square array: defined exactly for indices in [-n, n),
    where a negative index counts from the end. *)
Lemma getitem2_wrapped (n : Z) (S : lattice) (i j : Z) :
  is_square n S = true -> - n <= i < n -> - n <= j < n ->
  getitem2 S i j = Ok (cell S (i mod n) (j mod n)).
Proof.
  intros Hsq Hi Hj. pose proof (is_square_length _ _ Hsq) as Hlen.
  pose proof (Z.mod_pos_bound i n ltac:(lia)) as Hb.
  unfold getitem2, cell.
  rewrite (getitem_wrapped S i []) by lia. cbn [bind]. rewrite Hlen.
  pose proof (is_square_row n S (Z.to_nat (i mod n)) Hsq ltac:(lia)) as Hrow.
  rewrite (getitem_wrapped _ j 0) by lia. now rewrite Hrow.
Qed.

Lemma getitem2_outside (n : Z) (S : lattice) (i j : Z) :
  is_square n S = true -> ~ (- n <= i < n /\ - n <= j < n) ->
  getitem2 S i j = Raise IndexError.
Proof.
  intros Hsq H. pose proof (is_square_length _ _ Hsq) as Hlen.
  unfold getitem2.
  destruct (Z_le_dec (- n) i) as [H1|H1];
    [destruct (Z_lt_dec i n) as [H2|H2] |];
    try (rewrite getitem_outside by lia; reflexivity).
  pose proof (Z.mod_pos_bound i n ltac:(lia)) as Hb.
  rewrite (getitem_wrapped S i []) by lia. cbn [bind]. rewrite Hlen.
  pose proof (is_square_row n S (Z.to_nat (i mod n)) Hsq ltac:(lia)) as Hrow.
  apply getitem_outside. lia.
Qed.

(** The value of [deltaE] wherever it is defined, on any square array. *)
Lemma deltaE_wrapped (p : params) (S : lattice) (i j : Z) :
  is_square (N p) S = true -> - N p <= i < N p -> - N p <= j < N p ->
  deltaE p S i j =
  Ok (inject_Z (-2)
      * (inject_Z (i64_neg (cell S (i mod N p) (j mod N p)))
         * (J p * inject_Z
                    (i64_add
                       (i64_add
                          (i64_add (cell S ((i + 1) mod N p) (j mod N p))
                                   (cell S ((i - 1) mod N p) (j mod N p)))
                          (cell S (i mod N p) ((j + 1) mod N p)))
                       (cell S (i mod N p) ((j - 1) mod N p)))
            + B p)))%Q.
Proof.
  intros Hsq Hi Hj. assert (Hn : 0 < N p) by lia.
  destruct (pymod_pos (i + 1) _ Hn) as [E1 B1].
  destruct (pymod_pos (i - 1) _ Hn) as [E2 B2].
  destruct (pymod_pos (j + 1) _ Hn) as [E3 B3].
  destruct (pymod_pos (j - 1) _ Hn) as [E4 B4].
  unfold deltaE. rewrite E1, E2, E3, E4.
  rewrite !(getitem2_wrapped (N p)) by (assumption || lia). cbn [bind].
  rewrite !Z.mod_mod by lia. reflexivity.
Qed.

(** X1: on an N x N array, [deltaE] raises IndexError exactly when the site
    index leaves [-N, N) in one coordinate: the neighbours are wrapped, the
    site itself is not. *)
Theorem deltaE_domain (p : params) (S : lattice) (i j : Z) :
  is_square (N p) S = true ->
  (deltaE p S i j = Raise IndexError
   <-> ~ (- N p <= i < N p /\ - N p <= j < N p)).
Proof.
  intros Hsq. split.
  - intros E [Hi Hj]. rewrite deltaE_wrapped in E by assumption. discriminate.
  - intros H. unfold deltaE. now rewrite (getitem2_outside (N p)).
Qed.

Lemma deltaE_domain_witness :
  deltaE sample_params ones2 2 0 = Raise IndexError
  <-> ~ (- N sample_params <= 2 < N sample_params
         /\ - N sample_params <= 0 < N sample_params).
Proof.
  apply (deltaE_domain sample_params ones2 2 0). reflexivity.
Defined.

(** X2: a negative site index denotes the site counted from the end: for
    i and j in [-N, N), [deltaE] at (i, j) is [deltaE] at
    (i mod N, j mod N). *)
Theorem deltaE_negative_index (p : params) (S : lattice) (i j : Z) :
  is_square (N p) S = true -> - N p <= i < N p -> - N p <= j < N p ->
  deltaE p S i j = deltaE p S (i mod N p) (j mod N p).
Proof.
  intros Hsq Hi Hj.
  pose proof (Z.mod_pos_bound i (N p) ltac:(lia)).
  pose proof (Z.mod_pos_bound j (N p) ltac:(lia)).
  rewrite (deltaE_wrapped p S i j) by assumption.
  rewrite (deltaE_wrapped p S (i mod N p) (j mod N p)) by (assumption || lia).
  rewrite !Z.mod_mod by lia.
  rewrite !Zplus_mod_idemp_l, !Zminus_mod_idemp_l. reflexivity.
Qed.

Lemma deltaE_negative_index_witness :
  deltaE params4 lattice4 (-1) (-3)
  = deltaE params4 lattice4 (-1 mod N params4) (-3 mod N params4).
Proof.
  apply (deltaE_negative_index params4 lattice4 (-1) (-3));
    [reflexivity | simpl; lia | simpl; lia].
Defined.

(** ** Flipping a spin *)

Lemma list_set_twice {A : Type} (l : list A) (k : nat) (x y : A) :
  list_set (list_set l k x) k y = list_set l k y.
Proof.
  revert k; induction l as [|z t IH]; intros [|k]; simpl; auto.
  now rewrite IH.
Qed.

Lemma list_set_nth {A : Type} (l : list A) (k : nat) (d : A) :
  (k < length l)%nat -> list_set l k (nth k l d) = l.
Proof.
  revert k; induction l as [|z t IH]; intros [|k]; simpl; intros H;
    try lia; auto. rewrite IH by lia. reflexivity.
Qed.

Lemma setitem2_value (n : Z) (S : lattice) (i j v : Z) :
  is_square n S = true -> 0 <= i < n -> 0 <= j < n ->
  setitem2 S i j v =
  Ok (list_set S (Z.to_nat i) (list_set (nth (Z.to_nat i) S []) (Z.to_nat j) v)).
Proof.
  intros Hsq Hi Hj.
  pose proof (is_square_length _ _ Hsq) as Hlen.
  pose proof (is_square_row n S (Z.to_nat i) Hsq ltac:(lia)) as Hrow.
  unfold setitem2. rewrite (getitem_in_range S i []) by lia. cbn [bind].
  rewrite setitem_in_range by lia. cbn [bind].
  apply setitem_in_range. lia.
Qed.

Lemma flip_value (n : Z) (S : lattice) (i j : Z) :
  lattice_ok n S = true -> 0 <= i < n -> 0 <= j < n ->
  flip S i j =
  Ok (list_set S (Z.to_nat i)
        (list_set (nth (Z.to_nat i) S []) (Z.to_nat j) (- cell S i j))).
Proof.
  intros Hok Hi Hj. pose proof (lattice_ok_square _ _ Hok) as Hsq.
  pose proof (is_spin_cases _ (cell_is_spin _ _ _ _ Hok Hi Hj)) as Hs.
  unfold flip. rewrite (getitem2_cell n) by assumption. cbn [bind].
  unfold i64_neg. rewrite wrap64_small by lia.
  now apply (setitem2_value n).
Qed.

(** X3: flipping the same site twice gives the lattice back. *)
Theorem flip_involutive (n : Z) (S S' : lattice) (i j : Z) :
  lattice_ok n S = true -> 0 <= i < n -> 0 <= j < n ->
  flip S i j = Ok S' -> flip S' i j = Ok S.
Proof.
  intros Hok Hi Hj E.
  destruct (flip_in_range n S i j Hok Hi Hj) as [S1 [E1 [Hok1 _]]].
  rewrite E in E1. injection E1 as <-.
  pose proof (lattice_ok_square _ _ Hok) as Hsq.
  pose proof (is_square_length _ _ Hsq) as Hlen.
  pose proof (is_square_row n S (Z.to_nat i) Hsq ltac:(lia)) as Hrow.
  rewrite (flip_value n) in E by assumption. injection E as <-.
  rewrite (flip_value n) by assumption. f_equal.
  unfold cell. rewrite !nth_list_set_same by lia.
  rewrite !list_set_twice, Z.opp_involutive.
  rewrite !list_set_nth by lia. reflexivity.
Qed.

Lemma flip_involutive_witness :
  flip [[1; 1]; [-1; 1]] 1 0 = Ok ones2.
Proof.
  apply (flip_involutive 2 ones2 [[1; 1]; [-1; 1]] 1 0);
    [reflexivity | lia | lia | reflexivity].
Defined.

(** ** Sums over the cells *)

Lemma sum_upto_update (m c : nat) (f h : nat -> Z) :
  (c < m)%nat -> (forall k, (k < m)%nat -> k <> c -> h k = f k) ->
  sum_upto m h = sum_upto m f + (h c - f c).
Proof.
  induction m as [|m IH]; intros Hc H; [lia |]. cbn [sum_upto].
  destruct (Nat.eq_dec c m) as [->|Hne].
  - rewrite (sum_upto_ext m h f) by (intros k Hk; apply H; lia). lia.
  - rewrite IH by (try lia; intros k Hk Hkc; apply H; lia).
    rewrite (H m) by lia. lia.
Qed.

Lemma sum_upto_bounds (m : nat) (f : nat -> Z) (lo hi : Z) :
  (forall k, (k < m)%nat -> lo <= f k <= hi) ->
  Z.of_nat m * lo <= sum_upto m f <= Z.of_nat m * hi.
Proof.
  induction m as [|m IH]; intros H; cbn [sum_upto]; [lia |].
  specialize (IH (fun k Hk => H k (Nat.lt_lt_succ_r _ _ Hk))).
  specialize (H m (Nat.lt_succ_diag_r m)). lia.
Qed.

Lemma magnetization_spin_sum (n : Z) (S : lattice) :
  is_square n S = true -> 0 < n ->
  magnetization S = Finite (inject_Z (spin_sum n S) / inject_Z (n * n)).
Proof.
  intros Hsq Hn. rewrite (magnetization_spec n) by assumption.
  unfold spec_mean_magnetization. now replace (n * n =? 0) with false by nia.
Qed.

(** The sum of all spins after a flip. *)
Lemma spin_sum_flipped (n : Z) (S S' : lattice) (i j : Z) :
  flipped_at S S' n i j -> 0 <= i < n -> 0 <= j < n ->
  spin_sum n S' = spin_sum n S - 2 * cell S i j.
Proof.
  intros [_ Hcells] Hi Hj. unfold spin_sum.
  set (row := fun (T : lattice) (a : nat) =>
         sum_upto (Z.to_nat n) (fun b => cell T (Z.of_nat a) (Z.of_nat b))).
  change (sum_upto (Z.to_nat n) (row S') = sum_upto (Z.to_nat n) (row S) - 2 * cell S i j).
  assert (Hother : forall a, (a < Z.to_nat n)%nat -> a <> Z.to_nat i ->
            row S' a = row S a).
  { intros a Ha Hne. apply sum_upto_ext. intros b Hb.
    rewrite Hcells by lia. now replace (Z.of_nat a =? i) with false by lia. }
  assert (Hrow : row S' (Z.to_nat i) = row S (Z.to_nat i) - 2 * cell S i j).
  { unfold row.
    rewrite (sum_upto_update (Z.to_nat n) (Z.to_nat j)
               (fun b => cell S (Z.of_nat (Z.to_nat i)) (Z.of_nat b))
               (fun b => cell S' (Z.of_nat (Z.to_nat i)) (Z.of_nat b)));
      [| lia |].
    - rewrite !Z2Nat.id by lia. rewrite Hcells by lia.
      rewrite !Z.eqb_refl. cbn [andb]. lia.
    - intros b Hb Hne. rewrite Hcells by lia.
      replace (Z.of_nat b =? j) with false by lia.
      now rewrite andb_false_r. }
  rewrite (sum_upto_update (Z.to_nat n) (Z.to_nat i) (row S) (row S'));
    [lia | lia | assumption].
Qed.

Lemma sum_flatten_spin_sum (n : Z) (S : lattice) :
  is_square n S = true -> sum (flatten S) = spin_sum n S.
Proof.
  intros Hsq. pose proof (is_square_length _ _ Hsq) as Hlen.
  unfold flatten, spin_sum. rewrite sum_concat.
  replace (length S) with (Z.to_nat n) by lia.
  apply sum_upto_ext. intros i Hi. rewrite sum_nth.
  replace (length (nth i S [])) with (Z.to_nat n)
    by (symmetry; apply (is_square_rows n S Hsq), nth_In; lia).
  apply sum_upto_ext. intros j Hj. unfold cell. now rewrite !Nat2Z.id.
Qed.

Lemma total_spin_after_flip (n : Z) (S S' : lattice) (i j : Z) :
  lattice_ok n S = true -> 0 <= i < n -> 0 <= j < n ->
  flip S i j = Ok S' ->
  sum (flatten S') = sum (flatten S) - 2 * cell S i j.
Proof.
  intros Hok Hi Hj E.
  destruct (flip_in_range n S i j Hok Hi Hj) as [S1 [E1 [Hok1 Hfl]]].
  rewrite E in E1. injection E1 as <-.
  rewrite (sum_flatten_spin_sum n S') by now apply lattice_ok_square.
  rewrite (sum_flatten_spin_sum n S) by now apply lattice_ok_square.
  now apply spin_sum_flipped.
Qed.

(** X4: a flip at (i, j) changes the sum of all spins, the numerator of
    [numpy.mean(spins)], by exactly -2 S[i,j]. *)
Theorem flip_changes_total_spin (n : Z) (S S' : lattice) (i j : Z) :
  lattice_ok n S = true -> 0 <= i < n -> 0 <= j < n ->
  flip S i j = Ok S' ->
  sum (flatten S') = sum (flatten S) - 2 * cell S i j.
Proof. apply total_spin_after_flip. Qed.

Lemma flip_changes_total_spin_witness :
  sum (flatten ones2_flipped) = sum (flatten ones2) - 2 * cell ones2 1 0.
Proof.
  apply (flip_changes_total_spin 2 ones2 ones2_flipped 1 0);
    [reflexivity | lia | lia | reflexivity].
Defined.

(** ** The range of the observables *)

Lemma mean_in_unit_range (s d : Z) :
  0 < d -> - d <= s <= d ->
  (-1 <= inject_Z s / inject_Z d)%Q /\ (inject_Z s / inject_Z d <= 1)%Q.
Proof.
  intros Hd Hs.
  assert (Hq : (0 < inject_Z d)%Q)
    by (change 0%Q with (inject_Z 0); now rewrite <- Zlt_Qlt).
  split.
  - apply Qle_shift_div_l; [assumption |].
    change (-1)%Q with (inject_Z (-1)). rewrite <- inject_Z_mult, <- Zle_Qle. lia.
  - apply Qle_shift_div_r; [assumption |].
    change 1%Q with (inject_Z 1). rewrite <- inject_Z_mult, <- Zle_Qle. lia.
Qed.

Lemma spin_sum_range (n : Z) (S : lattice) :
  lattice_ok n S = true -> 0 < n -> - (n * n) <= spin_sum n S <= n * n.
Proof.
  intros Hok Hn. unfold spin_sum.
  pose proof (sum_upto_bounds (Z.to_nat n) (fun a =>
    sum_upto (Z.to_nat n) (fun b => cell S (Z.of_nat a) (Z.of_nat b)))
    (- n) n) as H.
  rewrite Z2Nat.id in H by lia.
  assert (forall a, (a < Z.to_nat n)%nat ->
            - n <= sum_upto (Z.to_nat n) (fun b => cell S (Z.of_nat a) (Z.of_nat b)) <= n).
  { intros a Ha.
    pose proof (sum_upto_bounds (Z.to_nat n) (fun b =>
      cell S (Z.of_nat a) (Z.of_nat b)) (-1) 1) as H'.
    rewrite Z2Nat.id in H' by lia.
    assert (forall b, (b < Z.to_nat n)%nat ->
              -1 <= cell S (Z.of_nat a) (Z.of_nat b) <= 1).
    { intros b Hb.
      pose proof (is_spin_cases _ (cell_is_spin n S (Z.of_nat a) (Z.of_nat b)
                                     Hok ltac:(lia) ltac:(lia))). lia. }
    specialize (H' H0). lia. }
  specialize (H H0). lia.
Qed.

Lemma observables_unit_range (n : Z) (S : lattice) :
  lattice_ok n S = true -> 0 < n ->
  is_number_in (-1) 1 (magnetization S)
  /\ (Z.even n = true ->
      exists s, staggered S = Ok s /\ is_number_in (-1) 1 s).
Proof.
  intros Hok Hn. pose proof (lattice_ok_square _ _ Hok) as Hsq. split.
  - rewrite (magnetization_spin_sum n) by assumption. simpl.
    apply mean_in_unit_range; [nia |]. now apply spin_sum_range.
  - intros Hev. eexists. split.
    + apply (staggered_spec n); auto.
      unfold staggered_defined. now rewrite Hev.
    + unfold spec_staggered.
      destruct (staggered_even _ _ Hsq Hev Hn) as [_ [_ [Hpos _]]].
      replace (n * n / 2 =? 0) with false by lia. simpl.
      pose proof (even_square _ Hev) as Hmod.
      pose proof (sum_upto_bounds (Z.to_nat (n * n / 2)) (fun k =>
        flat_at n S (2 * Z.of_nat k) * flat_at n S (2 * Z.of_nat k + 1))
        (-1) 1) as H.
      rewrite Z2Nat.id in H by lia.
      assert (Hk : forall k, (k < Z.to_nat (n * n / 2))%nat ->
                -1 <= flat_at n S (2 * Z.of_nat k) * flat_at n S (2 * Z.of_nat k + 1) <= 1).
      { intros k Hk.
        assert (H2k : Z.of_nat (2 * k + 1) < n * n)
          by (Z.to_euclidean_division_equations; lia).
        destruct (nth_flatten n S (2 * k) Hsq Hn ltac:(lia)) as [_ [B1 B2]].
        destruct (nth_flatten n S (2 * k + 1) Hsq Hn H2k) as [_ [B3 B4]].
        replace (Z.of_nat (2 * k)) with (2 * Z.of_nat k) in * by lia.
        replace (Z.of_nat (2 * k + 1)) with (2 * Z.of_nat k + 1) in * by lia.
        unfold flat_at.
        pose proof (is_spin_cases _ (cell_is_spin _ _ _ _ Hok B1 B2)).
        pose proof (is_spin_cases _ (cell_is_spin _ _ _ _ Hok B3 B4)).
        lia. }
      specialize (H Hk).
      set (sm := sum_upto _ _) in *.
      destruct (mean_in_unit_range sm (n * n / 2) Hpos ltac:(lia)) as [L U].
      split; lra.
Qed.

(** X5: on an N x N lattice of spins the mean magnetization is a number in
    [-1, 1], and for even N so is the staggered observable. *)
Theorem observables_in_range (n : Z) (S : lattice) :
  lattice_ok n S = true -> 0 < n ->
  is_number_in (-1) 1 (magnetization S)
  /\ (Z.even n = true ->
      exists s, staggered S = Ok s /\ is_number_in (-1) 1 s).
Proof. apply observables_unit_range. Qed.

Lemma observables_in_range_witness :
  is_number_in (-1) 1 (magnetization lattice4)
  /\ (Z.even 4 = true ->
      exists s, staggered lattice4 = Ok s /\ is_number_in (-1) 1 s).
Proof.
  apply (observables_in_range 4 lattice4); [reflexivity | lia].
Defined.

(** ** The values of [deltaE] *)

Lemma neighbour_sum_values (n : Z) (S : lattice) (i j : Z) :
  lattice_ok n S = true -> 0 <= i < n -> 0 <= j < n ->
  In (neighbour_sum n S i j) [-4; -2; 0; 2; 4].
Proof.
  intros Hok Hi Hj. unfold neighbour_sum.
  assert (B1 : 0 <= (i + 1) mod n < n) by (apply Z.mod_pos_bound; lia).
  assert (B2 : 0 <= (i - 1) mod n < n) by (apply Z.mod_pos_bound; lia).
  assert (B3 : 0 <= (j + 1) mod n < n) by (apply Z.mod_pos_bound; lia).
  assert (B4 : 0 <= (j - 1) mod n < n) by (apply Z.mod_pos_bound; lia).
  destruct (is_spin_cases _ (cell_is_spin _ _ _ _ Hok B1 Hj)) as [-> | ->];
  destruct (is_spin_cases _ (cell_is_spin _ _ _ _ Hok B2 Hj)) as [-> | ->];
  destruct (is_spin_cases _ (cell_is_spin _ _ _ _ Hok Hi B3)) as [-> | ->];
  destruct (is_spin_cases _ (cell_is_spin _ _ _ _ Hok Hi B4)) as [-> | ->];
  simpl; tauto.
Qed.

(** X6: on a lattice of spins [deltaE] depends on the lattice only through
    the spin s = +-1 at the site and the sum k of its four neighbours, which
    is one of -4, -2, 0, 2, 4: it returns the value of -2 * (-s * (J k + B)),
    so it takes at most ten values. *)
Theorem deltaE_values (p : params) (S : lattice) (i j : Z) :
  lattice_ok (N p) S = true -> 0 <= i < N p -> 0 <= j < N p ->
  exists s k,
    s = cell S i j /\ (s = 1 \/ s = -1)
    /\ k = neighbour_sum (N p) S i j /\ In k [-4; -2; 0; 2; 4]
    /\ deltaE p S i j
       = Ok (inject_Z (-2) * (inject_Z (- s) * (J p * inject_Z k + B p)))%Q.
Proof.
  intros Hok Hi Hj.
  exists (cell S i j), (neighbour_sum (N p) S i j).
  split; [reflexivity |].
  split; [apply is_spin_cases; now apply (cell_is_spin (N p)) |].
  split; [reflexivity |].
  split; [now apply neighbour_sum_values |].
  apply deltaE_value; auto using lattice_ok_square, lattice_ok_cells.
Qed.

Lemma deltaE_values_witness :
  exists s k,
    s = cell lattice4 2 3 /\ (s = 1 \/ s = -1)
    /\ k = neighbour_sum (N params4) lattice4 2 3 /\ In k [-4; -2; 0; 2; 4]
    /\ deltaE params4 lattice4 2 3
       = Ok (inject_Z (-2)
             * (inject_Z (- s) * (J params4 * inject_Z k + B params4)))%Q.
Proof.
  apply (deltaE_values params4 lattice4 2 3);
    [reflexivity | simpl; lia | simpl; lia].
Defined.

(** ** Reversing every spin *)

Lemma negate_cell (n : Z) (S : lattice) (a b : Z) :
  lattice_ok n S = true -> 0 <= a < n -> 0 <= b < n ->
  cell (negate S) a b = - cell S a b.
Proof.
  intros Hok Ha Hb. pose proof (lattice_ok_square _ _ Hok) as Hsq.
  pose proof (is_square_length _ _ Hsq) as Hlen.
  pose proof (is_square_row n S (Z.to_nat a) Hsq ltac:(lia)) as Hrow.
  pose proof (is_spin_cases _ (cell_is_spin _ _ _ _ Hok Ha Hb)) as Hs.
  unfold cell, negate in *.
  rewrite (nth_indep _ [] (map i64_neg [])) by (rewrite length_map; lia).
  rewrite map_nth.
  rewrite (nth_indep _ 0 (i64_neg 0)) by (rewrite length_map; lia).
  rewrite map_nth. unfold i64_neg. apply wrap64_small. lia.
Qed.

Lemma negate_ok (n : Z) (S : lattice) :
  lattice_ok n S = true -> lattice_ok n (negate S) = true.
Proof.
  unfold lattice_ok, is_square, spin_valued, negate. intros H.
  apply andb_prop in H as [H Hsp]. apply andb_prop in H as [Hlen Hrows].
  rewrite length_map, Hlen. cbn [andb].
  rewrite !forallb_map_compose. apply andb_true_intro. split.
  - rewrite forallb_forall in *. intros r Hin. rewrite length_map. auto.
  - rewrite forallb_forall in *. intros r Hin. specialize (Hsp r Hin).
    rewrite forallb_map_compose. rewrite forallb_forall in *.
    intros x Hx. destruct (is_spin_cases _ (Hsp x Hx)) as [-> | ->]; reflexivity.
Qed.

(** X7: reversing every spin together with the external field leaves
    [deltaE] as it is; with B = 0 [deltaE] is the same on S and on -S. *)
Theorem deltaE_spin_reversal (p : params) (S : lattice) (i j : Z) :
  lattice_ok (N p) S = true -> 0 <= i < N p -> 0 <= j < N p ->
  exists d d',
    deltaE p S i j = Ok d
    /\ deltaE (with_B p (- B p)) (negate S) i j = Ok d'
    /\ (d' == d)%Q.
Proof.
  intros Hok Hi Hj. pose proof (negate_ok _ _ Hok) as Hok'.
  assert (B1 : 0 <= (i + 1) mod N p < N p) by (apply Z.mod_pos_bound; lia).
  assert (B2 : 0 <= (i - 1) mod N p < N p) by (apply Z.mod_pos_bound; lia).
  assert (B3 : 0 <= (j + 1) mod N p < N p) by (apply Z.mod_pos_bound; lia).
  assert (B4 : 0 <= (j - 1) mod N p < N p) by (apply Z.mod_pos_bound; lia).
  eexists _, _. split; [| split].
  - apply deltaE_value; auto using lattice_ok_square, lattice_ok_cells.
  - apply deltaE_value; cbn [N with_B];
      auto using lattice_ok_square, lattice_ok_cells.
  - unfold local_field, neighbour_sum. cbn [N J B with_B].
    rewrite !(negate_cell (N p)) by assumption.
    rewrite !inject_Z_plus, !inject_Z_opp. ring.
Qed.

Lemma deltaE_spin_reversal_witness :
  exists d d',
    deltaE params4 lattice4 1 2 = Ok d
    /\ deltaE (with_B params4 (- B params4)) (negate lattice4) 1 2 = Ok d'
    /\ (d' == d)%Q.
Proof.
  apply (deltaE_spin_reversal params4 lattice4 1 2);
    [reflexivity | simpl; lia | simpl; lia].
Defined.

(** ** Zero temperature *)

Section ZeroTemperature.

Context {G : Type} {RS : RandomState G}.
Variable exp : Q -> Q.

Lemma accept_frozen (p : params) (dE : Q) (g : G) :
  (kBT p == 0)%Q -> (0 <= dE)%Q ->
  accept exp p dE g = (false, snd (random g)).
Proof.
  intros Hk Hd. unfold accept. apply Qltb_ge in Hd. rewrite Hd.
  pose proof (random_range g) as [Hu _].
  destruct (random g) as [u g']. cbn [fst snd] in *. f_equal.
  unfold true_divide. apply Qeq_bool_iff in Hk. rewrite Hk.
  apply Qltb_ge in Hd.
  replace (Qltb 0 (- dE)) with false
    by (symmetry; apply Qltb_ge; lra).
  destruct (Qltb (- dE) 0); cbn [np_exp float_lt]; [| reflexivity].
  now apply Qltb_ge.
Qed.

Lemma metropolis_frozen (p : params) (S : lattice) (g : G) :
  0 < N p -> lattice_ok (N p) S = true -> (kBT p == 0)%Q ->
  let i := fst (randint 0 (N p) g) in
  let g1 := snd (randint 0 (N p) g) in
  let j := fst (randint 0 (N p) g1) in
  let g2 := snd (randint 0 (N p) g1) in
  returns (deltaE p S i j) (fun dE =>
    ((dE < 0)%Q ->
     exists S', metropolis exp p S g = Ok (S', g2) /\ flipped_at S S' (N p) i j)
    /\ ((0 <= dE)%Q -> metropolis exp p S g = Ok (S, snd (random g2)))).
Proof.
  intros Hn Hok Hk i g1 j g2.
  destruct (np_randint2_pos (N p) g Hn) as [E [Hi Hj]].
  fold i g1 j g2 in E, Hi, Hj.
  eexists. split.
  { apply deltaE_value; auto using lattice_ok_square, lattice_ok_cells. }
  set (dE := (inject_Z (-2) * _)%Q).
  assert (Ed : deltaE p S i j = Ok dE)
    by (apply deltaE_value; auto using lattice_ok_square, lattice_ok_cells).
  destruct (flip_in_range _ _ _ _ Hok Hi Hj) as [S' [Ef [_ Hfl]]].
  unfold metropolis. rewrite E. cbn [bind]. rewrite Ed. cbn [bind].
  split.
  - intros Hlt. rewrite accept_downhill by assumption.
    rewrite Ef. cbn [bind]. eauto.
  - intros Hge. rewrite accept_frozen by assumption. reflexivity.
Qed.

(** X8: with kBT = 0 a flip attempt flips exactly when [deltaE] is
    negative: a move with deltaE >= 0 is always rejected, because
    [-dE / 0.0] is -inf or NaN and the comparison with the random number
    is false. *)
Theorem zero_temperature_quench (p : params) (S : lattice) (g : G) :
  0 < N p -> lattice_ok (N p) S = true -> (kBT p == 0)%Q ->
  let i := fst (randint 0 (N p) g) in
  let g1 := snd (randint 0 (N p) g) in
  let j := fst (randint 0 (N p) g1) in
  let g2 := snd (randint 0 (N p) g1) in
  returns (deltaE p S i j) (fun dE =>
    ((dE < 0)%Q ->
     exists S', metropolis exp p S g = Ok (S', g2) /\ flipped_at S S' (N p) i j)
    /\ ((0 <= dE)%Q -> metropolis exp p S g = Ok (S, snd (random g2)))).
Proof. apply metropolis_frozen. Qed.

End ZeroTemperature.

Lemma zero_temperature_quench_witness :
  let p := cold_params in
  let i := fst (randint 0 (N p) 7) in
  let g1 := snd (randint 0 (N p) 7) in
  let j := fst (randint 0 (N p) g1) in
  let g2 := snd (randint 0 (N p) g1) in
  returns (deltaE p ones2 i j) (fun dE =>
    ((dE < 0)%Q ->
     exists S', metropolis sample_exp p ones2 7 = Ok (S', g2)
                /\ flipped_at ones2 S' (N p) i j)
    /\ ((0 <= dE)%Q ->
        metropolis sample_exp p ones2 7 = Ok (ones2, snd (random g2)))).
Proof.
  apply (zero_temperature_quench sample_exp cold_params ones2 7);
    [simpl; lia | reflexivity | reflexivity].
Defined.

(** ** The outcome of the whole cell *)

Section Outcome.

Context {G : Type} {RS : RandomState G}.
Variable exp : Q -> Q.

Lemma staggered_ok_defined (n : Z) (S : lattice) (s : float) :
  is_square n S = true -> 0 < n -> staggered S = Ok s ->
  staggered_defined n = true.
Proof.
  intros Hsq Hn Es.
  unfold staggered_defined. destruct (Z.even n) eqn:Hev; [reflexivity |].
  destruct (Z.eqb_spec n 1) as [|Hne]; [reflexivity |].
  destruct (staggered_cases n S Hsq) as [_ [Hodd _]].
  assert (n <> 2) by (intros E2; rewrite E2 in Hev; discriminate).
  rewrite Hodd in Es; [discriminate | | lia].
  rewrite <- Z.negb_even, Hev. reflexivity.
Qed.

Lemma loop_prefix (p : params) (a b : nat) (idx : Z) (st st' : state) (g g' : G) :
  loop exp p (a + b) idx st g = Ok (st', g') ->
  exists st1 g1,
    loop exp p a idx st g = Ok (st1, g1)
    /\ loop exp p b (idx + Z.of_nat a) st1 g1 = Ok (st', g').
Proof.
  rewrite loop_app. intros H.
  apply bind_ok in H as [[st1 g1] [E H]]. eauto.
Qed.

Lemma step_empty_lattice (p : params) (idx : Z) (st : state) (g : G) :
  N p <= 0 -> step exp p idx st g = Raise ValueError.
Proof.
  intros H. unfold step, metropolis, np_randint2.
  now replace (N p <=? 0) with true by lia.
Qed.

(** What a completed run says about the configuration. *)
Lemma main_ok_config (p : params) (g g' : G) (st : state) :
  main exp p g = Ok (st, g') ->
  1 <= N p /\ 1 <= Steps p /\ staggered_defined (N p) = true.
Proof.
  intros H. unfold main, run_prefix in H.
  apply bind_ok in H as [[st0 g0] [E H]].
  apply init_ok in E as [Hok [Hm [_ [Hs [s [Es _]]]]]].
  pose proof (lattice_ok_square _ _ Hok) as Hsq.
  pose proof (is_square_length _ _ Hsq) as Hlen.
  assert (Hn : 1 <= N p).
  { destruct (Z_le_dec (N p) 0) as [H0|]; [| lia].
    destruct (Z.to_nat (Steps p)) as [|k] eqn:Ek; [lia |].
    cbn [loop] in H. rewrite step_empty_lattice in H by assumption.
    discriminate H. }
  repeat split; try assumption.
  apply (staggered_ok_defined _ _ _ Hsq ltac:(lia) Es).
Qed.

(** X9: the cell runs to its end exactly when N >= 1, Steps >= 1 and N is
    even or 1. *)
Theorem main_succeeds_iff (p : params) (g : G) :
  (exists r, main exp p g = Ok r)
  <-> (1 <= N p /\ 1 <= Steps p /\ staggered_defined (N p) = true).
Proof.
  split.
  - intros [[st' g''] H]. now apply (main_ok_config p g g'' st').
  - intros [Hn [Hs Hdef]].
    destruct (init_total p g ltac:(lia) Hdef Hs) as [st [g' E]].
    pose proof (init_ok _ _ _ _ E) as [Hok [Hm [Hms _]]].
    destruct (loop_total exp p (Z.to_nat (Steps p)) 0 st g') as [st' [g'' E']];
      auto; try lia.
    exists (st', g''). unfold main, run_prefix. rewrite E. exact E'.
Qed.

(** X10: with N = 0 and at least one step the initialisation succeeds, on
    an empty lattice and with NaN as both seeded observables, and the
    first iteration raises ValueError when it picks a site. *)
Theorem empty_lattice_fails_in_loop (p : params) (g : G) :
  N p = 0 -> 1 <= Steps p ->
  init p g =
    Ok ({| spins := [];
           M := list_set (repeat (Finite 0, Finite 0) (Z.to_nat (Steps p))) 0
                  (Finite 0, NaN);
           MS := list_set (repeat (Finite 0, Finite 0) (Z.to_nat (Steps p))) 0
                   (Finite 0, NaN) |}, g)
  /\ main exp p g = Raise ValueError.
Proof.
  intros Hn Hs.
  assert (E : init p g =
    Ok ({| spins := [];
           M := list_set (repeat (Finite 0, Finite 0) (Z.to_nat (Steps p))) 0
                  (Finite 0, NaN);
           MS := list_set (repeat (Finite 0, Finite 0) (Z.to_nat (Steps p))) 0
                   (Finite 0, NaN) |}, g)).
  { unfold init. rewrite Hn. cbn [np_random2 Z.ltb Z.compare orb Z.to_nat random_rows bind].
    rewrite np_zeros2_ok by lia. cbn [bind where_gt_half map].
    rewrite setitem_in_range by (rewrite repeat_length; lia). cbn [bind].
    change (staggered []) with (@Ok float NaN). cbn [bind].
    rewrite setitem_in_range by (rewrite repeat_length; lia).
    reflexivity. }
  split; [assumption |].
  unfold main, run_prefix. rewrite E. cbn [bind].
  destruct (Z.to_nat (Steps p)) as [|k] eqn:Ek; [lia |].
  cbn [loop]. rewrite step_empty_lattice by lia. reflexivity.
Qed.

(** X11: a negative [Steps] makes the allocation of [M] raise ValueError,
    and an odd N >= 3 with at least one step makes the seeding of [MS[0]]
    raise ValueError: in both cases the cell fails before the loop. *)
Theorem init_errors (p : params) (g : G) :
  0 <= N p ->
  (Steps p < 0 -> init p g = Raise ValueError)
  /\ (Z.odd (N p) = true -> 3 <= N p -> 1 <= Steps p ->
      init p g = Raise ValueError).
Proof.
  intros Hn.
  destruct (random_lattice_ok (N p) g Hn) as [a [g' [E Hok]]].
  unfold init. rewrite E. cbn [bind]. split.
  - intros Hs. unfold np_zeros2.
    now replace (Steps p <? 0) with true by lia.
  - intros Hodd H3 Hs. rewrite np_zeros2_ok by lia. cbn [bind].
    rewrite setitem_in_range by (rewrite repeat_length; lia). cbn [bind].
    destruct (staggered_cases (N p) (where_gt_half a)
                (lattice_ok_square _ _ Hok)) as [_ [H _]].
    now rewrite H.
Qed.

Lemma final_rows (p : params) (g g' : G) (st : state) (k : nat) :
  main exp p g = Ok (st, g') -> Z.of_nat k < Steps p ->
  exists sk gk s,
    run_prefix exp p (Datatypes.S k) g = Ok (sk, gk)
    /\ staggered (spins sk) = Ok s
    /\ nth_error (M st) k
       = Some (Finite (inject_Z (Z.of_nat k)), magnetization (spins sk))
    /\ nth_error (MS st) k = Some (Finite (inject_Z (Z.of_nat k)), s).
Proof.
  intros H Hk. unfold main, run_prefix in *.
  apply bind_ok in H as [[st0 g0] [E0 H]]. rewrite E0. cbn [bind].
  replace (Z.to_nat (Steps p))
    with (k + (1 + (Z.to_nat (Steps p) - Datatypes.S k)))%nat in H by lia.
  apply loop_prefix in H as [s1 [g1 [E1 H]]].
  apply loop_prefix in H as [s2 [g2 [E2 H]]].
  cbn [loop] in E2. apply bind_ok in E2 as [[s2' g2'] [Estep E2]].
  injection E2 as -> ->.
  rewrite Z.add_0_l in Estep.
  exists s2, g2.
  pose proof (step_ok exp p _ _ _ _ _ Estep ltac:(lia))
    as [s [_ [Es [Hm [Hms [EM EMS]]]]]].
  exists s. split; [| split; [assumption |]].
  - replace (Datatypes.S k) with (k + 1)%nat by lia.
    rewrite loop_app, E1. cbn [bind loop]. rewrite Z.add_0_l, Estep.
    reflexivity.
  - apply loop_ok in H as [_ [_ [_ [_ F]]]]; [| lia].
    destruct (F k ltac:(lia)) as [-> ->].
    rewrite EM, EMS, Nat2Z.id.
    split; apply nth_error_list_set_same; lia.
Qed.

(** X12: at the end of a run, row k of [M] and of [MS] holds the step
    index k and the observables of the lattice as it was after k + 1
    iterations. *)
Theorem history_of_observables (p : params) (g g' : G) (st : state) (k : nat) :
  main exp p g = Ok (st, g') -> Z.of_nat k < Steps p ->
  exists sk gk s,
    run_prefix exp p (Datatypes.S k) g = Ok (sk, gk)
    /\ staggered (spins sk) = Ok s
    /\ nth_error (M st) k
       = Some (Finite (inject_Z (Z.of_nat k)), magnetization (spins sk))
    /\ nth_error (MS st) k = Some (Finite (inject_Z (Z.of_nat k)), s).
Proof. apply final_rows. Qed.

Lemma run_prefix_lattice (p : params) (k : nat) (g g' : G) (st : state) :
  0 < N p -> run_prefix exp p k g = Ok (st, g') ->
  lattice_ok (N p) (spins st) = true.
Proof.
  intros Hn H. unfold run_prefix in H.
  apply bind_ok in H as [[st0 g0] [E0 H]].
  apply init_ok in E0 as [Hok0 _].
  apply loop_ok in H as [Hok _]; [| lia]. auto.
Qed.

Lemma run_prefix_succ (p : params) (k : nat) (g g' : G) (st : state) :
  run_prefix exp p (Datatypes.S k) g = Ok (st, g') ->
  exists sk gk,
    run_prefix exp p k g = Ok (sk, gk)
    /\ step exp p (Z.of_nat k) sk gk = Ok (st, g').
Proof.
  unfold run_prefix. intros H.
  apply bind_ok in H as [[st0 g0] [E0 H]]. rewrite E0. cbn [bind].
  replace (Datatypes.S k) with (k + 1)%nat in H by lia.
  apply loop_prefix in H as [sk [gk [E1 E2]]].
  cbn [loop] in E2. apply bind_ok in E2 as [[s2 g2] [Estep E2]].
  injection E2 as -> ->. rewrite Z.add_0_l in Estep. eauto.
Qed.

(** A flip attempt leaves the lattice as it is or flips one site. *)
Lemma metropolis_outcome (p : params) (S S' : lattice) (g g' : G) :
  0 < N p -> metropolis exp p S g = Ok (S', g') ->
  S' = S
  \/ exists i j, 0 <= i < N p /\ 0 <= j < N p /\ flip S i j = Ok S'.
Proof.
  intros Hn H. unfold metropolis in H.
  destruct (np_randint2_pos (N p) g Hn) as [E [Hi Hj]].
  rewrite E in H. cbn [bind] in H.
  apply bind_ok in H as [dE [_ H]].
  destruct (accept exp p dE _) as [[|] g2].
  - apply bind_ok in H as [S1 [Ef H]]. injection H as <- <-.
    right. eauto.
  - injection H as <- <-. now left.
Qed.

(** X13: in the recorded history, the rows of consecutive steps k and
    k + 1 hold the mean magnetization of two lattices whose sums of spins
    are equal or differ by exactly 2, one spin at most being flipped per
    step. *)
Theorem total_spin_increments (p : params) (g g' : G) (st : state) (k : nat) :
  main exp p g = Ok (st, g') -> Z.of_nat k + 1 < Steps p ->
  exists sk gk sk' gk',
    run_prefix exp p (Datatypes.S k) g = Ok (sk, gk)
    /\ run_prefix exp p (Datatypes.S (Datatypes.S k)) g = Ok (sk', gk')
    /\ nth_error (M st) k
       = Some (Finite (inject_Z (Z.of_nat k)), magnetization (spins sk))
    /\ nth_error (M st) (Datatypes.S k)
       = Some (Finite (inject_Z (Z.of_nat (Datatypes.S k))),
               magnetization (spins sk'))
    /\ (sum (flatten (spins sk')) = sum (flatten (spins sk))
        \/ sum (flatten (spins sk')) = sum (flatten (spins sk)) + 2
        \/ sum (flatten (spins sk')) = sum (flatten (spins sk)) - 2).
Proof.
  intros H Hk.
  pose proof (main_ok_config _ _ _ _ H) as [Hn _].
  destruct (final_rows p g g' st k H ltac:(lia)) as [sk [gk [s [Ek [_ [Rk _]]]]]].
  destruct (final_rows p g g' st (Datatypes.S k) H ltac:(lia))
    as [sk' [gk' [s' [Ek' [_ [Rk' _]]]]]].
  exists sk, gk, sk', gk'.
  split; [assumption |]. split; [assumption |].
  split; [assumption |]. split; [assumption |].
  apply run_prefix_succ in Ek' as [sk0 [gk0 [Ek0 Estep]]].
  rewrite Ek in Ek0. injection Ek0 as <- <-.
  pose proof (run_prefix_lattice p _ _ _ _ ltac:(lia) Ek) as Hok.
  apply step_ok in Estep as [_ [Emet _]]; [| lia].
  destruct (metropolis_outcome p _ _ _ _ ltac:(lia) Emet)
    as [-> | [i [j [Hi [Hj Ef]]]]]; [now left |].
  right. rewrite (total_spin_after_flip (N p) _ _ i j Hok Hi Hj Ef).
  destruct (is_spin_cases _ (cell_is_spin _ _ _ _ Hok Hi Hj)) as [-> | ->]; lia.
Qed.

End Outcome.

(** ** The frames drawn during a run *)

Lemma firstn_ext {A : Type} (n : nat) (l l' : list A) :
  (forall k, (k < n)%nat -> nth_error l k = nth_error l' k) ->
  firstn n l = firstn n l'.
Proof.
  revert l l'. induction n as [|n IH]; intros l l' H; [reflexivity |].
  pose proof (H 0%nat ltac:(lia)) as H0.
  destruct l as [|x l], l' as [|y l']; simpl in H0; try discriminate;
    [reflexivity |].
  injection H0 as <-. cbn [firstn]. f_equal.
  apply IH. intros k Hk. apply (H (Datatypes.S k)). lia.
Qed.

Lemma firstn_seq_min (n a m : nat) :
  firstn n (seq a m) = seq a (Nat.min n m).
Proof.
  revert a m. induction n as [|n IH]; intros a [|m]; simpl; auto.
  now rewrite IH.
Qed.

Lemma slice_to_nonneg {A : Type} (l : list A) (i : Z) :
  0 <= i -> slice_to l i = firstn (Z.to_nat i) l.
Proof. intros H. unfold slice_to. now replace (0 <=? i) with true by lia. Qed.

Lemma plot_indices_succ (idx : Z) (n : nat) :
  plot_indices idx (Datatypes.S n) =
  (if idx mod 999 =? 0 then [idx] else []) ++ plot_indices (idx + 1) n.
Proof.
  unfold plot_indices. cbn [seq map filter].
  rewrite <- seq_shift, map_map, Z.add_0_r.
  rewrite (map_ext (fun k => idx + Z.of_nat (Datatypes.S k))
                   (fun k => idx + 1 + Z.of_nat k)) by (intros; lia).
  destruct (idx mod 999 =? 0); reflexivity.
Qed.

Lemma plot_indices_bounds (idx : Z) (n : nat) (i : Z) :
  In i (plot_indices idx n) -> idx <= i < idx + Z.of_nat n.
Proof.
  unfold plot_indices. rewrite filter_In, in_map_iff.
  intros [[k [<- Hk]] _]. apply in_seq in Hk. lia.
Qed.

(** The indices at which a run draws are the multiples of 999 below the
    number of steps. *)
Lemma plot_indices_multiples (n : nat) :
  plot_indices 0 n =
  map (fun k => 999 * Z.of_nat k)
      (seq 0 (Z.to_nat ((Z.of_nat n + 998) / 999))).
Proof.
  induction n as [|n IH]; [reflexivity |].
  unfold plot_indices in *. rewrite seq_S, map_app, filter_app, IH.
  cbn [map filter Nat.add]. rewrite Z.add_0_l.
  destruct (Z.of_nat n mod 999 =? 0) eqn:E.
  - replace (Z.to_nat ((Z.of_nat (Datatypes.S n) + 998) / 999))
      with (Datatypes.S (Z.to_nat ((Z.of_nat n + 998) / 999)))
      by (Z.to_euclidean_division_equations; lia).
    rewrite seq_S, map_app. cbn [map Nat.add]. do 2 f_equal.
    Z.to_euclidean_division_equations; lia.
  - replace (Z.to_nat ((Z.of_nat (Datatypes.S n) + 998) / 999))
      with (Z.to_nat ((Z.of_nat n + 998) / 999))
      by (Z.to_euclidean_division_equations; lia).
    now rewrite app_nil_r.
Qed.

Lemma frame_of_limits {G : Type} (r : result (state * G)) (i : Z) :
  y_limits (frame_of r i) = ((- (11 # 10))%Q, (11 # 10)%Q)
  /\ colour_range (frame_of r i) = ((-1)%Q, 1%Q).
Proof. destruct r as [[s g]|e]; split; reflexivity. Qed.

Section Frames.

Context {G : Type} {RS : RandomState G}.
Variable exp : Q -> Q.

Lemma loop_plot_frames (p : params) (n : nat) (idx : Z) (st st' : state)
    (g g' : G) :
  loop exp p n idx st g = Ok (st', g') ->
  loop_plot exp p n idx st g =
  Ok (st', g',
      map (fun i => frame_of (loop exp p (Datatypes.S (Z.to_nat (i - idx))) idx st g) i)
          (plot_indices idx n)).
Proof.
  revert idx st g. induction n as [|n IH]; intros idx st g H.
  - simpl in H. injection H as <- <-. reflexivity.
  - cbn [loop] in H. apply bind_ok in H as [[st1 g1] [Estep H]].
    cbn [loop_plot]. unfold step_plot. rewrite Estep. cbn [bind].
    rewrite (IH _ _ _ H). cbn [bind].
    rewrite plot_indices_succ, map_app.
    assert (Hrest :
      map (fun i => frame_of (loop exp p (Datatypes.S (Z.to_nat (i - idx))) idx st g) i)
          (plot_indices (idx + 1) n)
      = map (fun i => frame_of (loop exp p (Datatypes.S (Z.to_nat (i - (idx + 1))))
                                  (idx + 1) st1 g1) i)
            (plot_indices (idx + 1) n)).
    { apply map_ext_in. intros i Hi. apply plot_indices_bounds in Hi.
      replace (Z.to_nat (i - idx)) with (Datatypes.S (Z.to_nat (i - (idx + 1)))) by lia.
      cbn [loop]. rewrite Estep. reflexivity. }
    rewrite Hrest. destruct (idx mod 999 =? 0); [| reflexivity].
    cbn [map app]. do 3 f_equal.
    rewrite Z.sub_diag. cbn [Z.to_nat loop]. rewrite Estep. reflexivity.
Qed.

Lemma loop_plot_erase (p : params) (n : nat) (idx : Z) (st st' : state)
    (g g' : G) (fs : list frame) :
  loop_plot exp p n idx st g = Ok (st', g', fs) ->
  loop exp p n idx st g = Ok (st', g').
Proof.
  revert idx st g fs. induction n as [|n IH]; intros idx st g fs H.
  - simpl in H. injection H as <- <- _. reflexivity.
  - cbn [loop_plot] in H. apply bind_ok in H as [[[st1 g1] f] [Estep H]].
    apply bind_ok in H as [[[st2 g2] fs'] [Erest H]].
    injection H as <- <- _.
    unfold step_plot in Estep. apply bind_ok in Estep as [[s1 h1] [Es Estep]].
    injection Estep as <- <- _.
    cbn [loop]. rewrite Es. cbn [bind]. eauto.
Qed.

(** The rows of a completed loop carry the step indices. *)
Lemma loop_indices (p : params) (st st' : state) (g g' : G) :
  loop exp p (Z.to_nat (Steps p)) 0 st g = Ok (st', g') ->
  Z.of_nat (length (M st)) = Steps p ->
  Z.of_nat (length (MS st)) = Steps p ->
  map fst (M st') = step_indices (Z.to_nat (Steps p))
  /\ map fst (MS st') = step_indices (Z.to_nat (Steps p)).
Proof.
  intros E Hm Hms.
  apply loop_ok in E as [_ [L1 [L2 [W _]]]]; [| lia].
  assert (Hidx : forall l : list (float * float),
            length l = Z.to_nat (Steps p) ->
            (forall k, (k < Z.to_nat (Steps p))%nat ->
               exists v, nth_error l k = Some (Finite (inject_Z (Z.of_nat k)), v)) ->
            map fst l = step_indices (Z.to_nat (Steps p))).
  { intros l Hl Hrows. unfold step_indices.
    apply (nth_ext _ _ NaN (Finite (inject_Z (Z.of_nat 0)))).
    - now rewrite !length_map, length_seq.
    - intros k Hk. rewrite length_map in Hk.
      destruct (Hrows k ltac:(lia)) as [v Ev].
      transitivity (fst (nth k l (NaN, NaN))); [apply (map_nth fst l (NaN, NaN)) |].
      rewrite (nth_error_nth _ _ _ Ev). cbn [fst]. symmetry.
      transitivity (Finite (inject_Z (Z.of_nat (nth k (seq 0 (Z.to_nat (Steps p))) 0%nat))));
        [apply (map_nth (fun k => Finite (inject_Z (Z.of_nat k))) _ 0%nat) |].
      rewrite seq_nth by lia. reflexivity. }
  split; apply Hidx; try lia; intros k Hk; apply W; simpl; lia.
Qed.

(** The frames of a completed run, one by one. *)
Lemma main_plot_frames (p : params) (g g' : G) (st : state) :
  main exp p g = Ok (st, g') ->
  main_plot exp p g =
  Ok (st, g',
      map (fun k => frame_of (run_prefix exp p (Datatypes.S (999 * k)) g)
                      (999 * Z.of_nat k))
          (seq 0 (Z.to_nat ((Steps p + 998) / 999)))).
Proof.
  intros H. unfold main, run_prefix in H.
  apply bind_ok in H as [[st0 g0] [E0 H]].
  pose proof (init_ok _ _ _ _ E0) as [_ [_ [_ [Hs _]]]].
  unfold main_plot. rewrite E0. cbn [bind].
  rewrite (loop_plot_frames _ _ _ _ _ _ _ H).
  rewrite plot_indices_multiples, map_map, Z2Nat.id by lia.
  do 2 f_equal. apply map_ext. intros k.
  unfold run_prefix. rewrite E0. cbn [bind].
  rewrite Z.sub_0_r.
  replace (Z.to_nat (999 * Z.of_nat k)) with (999 * k)%nat by lia.
  reflexivity.
Qed.

(** X14: drawing does not change the outcome of the cell: with the frames
    left out, the run with [live_plot] is the run without it; and a
    completed run draws (Steps + 998) / 999 frames, one at every index
    that is a multiple of 999. *)
Theorem display_count (p : params) (g g' : G) (st : state) :
  (main exp p g = Ok (st, g')
   <-> exists fs, main_plot exp p g = Ok (st, g', fs))
  /\ (forall fs, main_plot exp p g = Ok (st, g', fs) ->
        Z.of_nat (length fs) = (Steps p + 998) / 999).
Proof.
  assert (Herase : forall fs, main_plot exp p g = Ok (st, g', fs) ->
            main exp p g = Ok (st, g')).
  { intros fs H. unfold main_plot in H.
    apply bind_ok in H as [[st0 g0] [E0 H]].
    unfold main, run_prefix. rewrite E0. cbn [bind].
    now apply (loop_plot_erase p _ _ _ _ _ _ fs). }
  split; [split |].
  - intros H. eexists. now apply main_plot_frames.
  - intros [fs H]. now apply (Herase fs).
  - intros fs H. pose proof (Herase fs H) as Hm.
    rewrite (main_plot_frames _ _ _ _ Hm) in H.
    assert (Efs : fs = map (fun k => frame_of (run_prefix exp p (Datatypes.S (999 * k)) g)
                                      (999 * Z.of_nat k))
                           (seq 0 (Z.to_nat ((Steps p + 998) / 999))))
      by congruence.
    clear H. subst fs.
    rewrite length_map, length_seq.
    unfold main, run_prefix in Hm.
    apply bind_ok in Hm as [[st0 g0] [E0 _]].
    apply init_ok in E0 as [_ [_ [_ [Hs _]]]].
    rewrite Z2Nat.id; [reflexivity |].
    Z.to_euclidean_division_equations; lia.
Qed.

Lemma frame_at (p : params) (g g' : G) (st : state)
    (fs : list frame) (k : nat) (f : frame) :
  main_plot exp p g = Ok (st, g', fs) -> nth_error fs k = Some f ->
  999 * Z.of_nat k < Steps p
  /\ (exists sk gk, run_prefix exp p (Datatypes.S (999 * k)) g = Ok (sk, gk)
                    /\ image f = spins sk)
  /\ m_x f = step_indices (999 * k) /\ ms_x f = step_indices (999 * k)
  /\ m_y f = firstn (999 * k) (map snd (M st))
  /\ ms_y f = firstn (999 * k) (map snd (MS st)).
Proof.
  intros H Hf.
  assert (Hm : main exp p g = Ok (st, g')).
  { unfold main_plot in H. apply bind_ok in H as [[st0 g0] [E0 H]].
    unfold main, run_prefix. rewrite E0. cbn [bind].
    now apply (loop_plot_erase p _ _ _ _ _ _ fs). }
  rewrite (main_plot_frames _ _ _ _ Hm) in H.
  assert (Efs : fs = map (fun k => frame_of (run_prefix exp p (Datatypes.S (999 * k)) g)
                                    (999 * Z.of_nat k))
                         (seq 0 (Z.to_nat ((Steps p + 998) / 999))))
    by congruence.
  clear H. subst fs.
  pose proof Hm as Hm'. unfold main, run_prefix in Hm'.
  apply bind_ok in Hm' as [[st0 g0] [E0 Hloop]].
  pose proof (init_ok _ _ _ _ E0) as [_ [HM [HMS [Hs _]]]].
  assert (Hk : 999 * Z.of_nat k < Steps p).
  { match type of Hf with
    | nth_error ?l _ = _ =>
        assert (Hlt : (k < length l)%nat)
          by (apply nth_error_Some; rewrite Hf; discriminate)
    end.
    rewrite length_map, length_seq in Hlt.
    Z.to_euclidean_division_equations; lia. }
  rewrite nth_error_map in Hf.
  rewrite nth_error_seq in Hf.
  destruct (k <? Z.to_nat ((Steps p + 998) / 999))%nat; [| discriminate].
  rewrite Nat.add_0_l in Hf. unfold option_map in Hf.
  assert (Ef : f = frame_of (run_prefix exp p (Datatypes.S (999 * k)) g)
                     (999 * Z.of_nat k)) by congruence.
  clear Hf. subst f.
  split; [assumption |].
  pose proof Hloop as Hsplit.
  replace (Z.to_nat (Steps p))
    with (Datatypes.S (999 * k) + (Z.to_nat (Steps p) - Datatypes.S (999 * k)))%nat
    in Hsplit by lia.
  apply loop_prefix in Hsplit as [sk [gk [Ek Erest]]].
  assert (Erun : run_prefix exp p (Datatypes.S (999 * k)) g = Ok (sk, gk))
    by (unfold run_prefix; rewrite E0; exact Ek).
  rewrite Erun. cbn [frame_of live_plot image m_x m_y ms_x ms_y].
  split; [eauto |].
  rewrite !slice_to_nonneg by lia.
  replace (Z.to_nat (999 * Z.of_nat k)) with (999 * k)%nat by lia.
  apply loop_ok in Erest as [_ [_ [_ [_ F]]]]; [| lia].
  assert (EM : firstn (999 * k) (M sk) = firstn (999 * k) (M st)).
  { apply firstn_ext. intros j Hj. symmetry. apply F. lia. }
  assert (EMS : firstn (999 * k) (MS sk) = firstn (999 * k) (MS st)).
  { apply firstn_ext. intros j Hj. symmetry. apply F. lia. }
  rewrite EM, EMS, <- !firstn_map.
  destruct (loop_indices p _ _ _ _ Hloop HM HMS) as [-> ->].
  unfold step_indices. rewrite !firstn_map, firstn_seq_min.
  rewrite Nat.min_l by lia. auto.
Qed.

(** X15: the k-th frame of a run is drawn after iteration 999 k: it shows
    the lattice left by that iteration and, for each observable, the rows
    of the steps 0, ..., 999 k - 1 as they stand at the end of the run.
    The row of the current step is not drawn; the first frame has empty
    curves and the row of the last step is never drawn. *)
Theorem frame_contents (p : params) (g g' : G) (st : state)
    (fs : list frame) (k : nat) (f : frame) :
  main_plot exp p g = Ok (st, g', fs) -> nth_error fs k = Some f ->
  999 * Z.of_nat k < Steps p
  /\ (exists sk gk, run_prefix exp p (Datatypes.S (999 * k)) g = Ok (sk, gk)
                    /\ image f = spins sk)
  /\ m_x f = step_indices (999 * k) /\ ms_x f = step_indices (999 * k)
  /\ m_y f = firstn (999 * k) (map snd (M st))
  /\ ms_y f = firstn (999 * k) (map snd (MS st)).
Proof. apply frame_at. Qed.

(** X16: every point of the magnetization curve of every frame lies within
    the y-limits that [live_plot] sets, and for even N so does every point
    of the staggered curve; the cells of the image lie within its colour
    range. *)
Theorem frames_within_limits (p : params) (g g' : G) (st : state)
    (fs : list frame) (f : frame) :
  main_plot exp p g = Ok (st, g', fs) -> In f fs ->
  Forall (is_number_in (fst (y_limits f)) (snd (y_limits f))) (m_y f)
  /\ (Z.even (N p) = true ->
      Forall (is_number_in (fst (y_limits f)) (snd (y_limits f))) (ms_y f))
  /\ (forall a b, 0 <= a < N p -> 0 <= b < N p ->
        (fst (colour_range f) <= inject_Z (cell (image f) a b))%Q
        /\ (inject_Z (cell (image f) a b) <= snd (colour_range f))%Q).
Proof.
  intros H Hin. apply In_nth_error in Hin as [k Hf].
  assert (Hm : main exp p g = Ok (st, g')).
  { unfold main_plot in H. apply bind_ok in H as [[st0 g0] [E0 H]].
    unfold main, run_prefix. rewrite E0. cbn [bind].
    now apply (loop_plot_erase p _ _ _ _ _ _ fs). }
  pose proof (main_ok_config exp p g g' st Hm) as [Hn _].
  destruct (frame_at p g g' st fs k f H Hf)
    as [Hk [[sk [gk [Ek Eim]]] [_ [_ [Ey Eys]]]]].
  assert (Hlim : y_limits f = ((- (11 # 10))%Q, (11 # 10)%Q)
                 /\ colour_range f = ((-1)%Q, 1%Q)).
  { rewrite (main_plot_frames p g g' st Hm) in H.
    assert (Efs : fs = map (fun k => frame_of (run_prefix exp p (Datatypes.S (999 * k)) g)
                                      (999 * Z.of_nat k))
                           (seq 0 (Z.to_nat ((Steps p + 998) / 999))))
      by congruence.
    pose proof (nth_error_In _ _ Hf) as Hin. rewrite Efs in Hin.
    apply in_map_iff in Hin as [k0 [E0 _]]. rewrite <- E0.
    apply frame_of_limits. }
  destruct Hlim as [-> ->]. cbn [fst snd].
  assert (Hrow : forall (obs : state -> list (float * float)) (v : float) (j : nat),
            nth_error (firstn (999 * k) (map snd (obs st))) j = Some v ->
            (j < 999 * k)%nat /\ nth_error (map snd (obs st)) j = Some v).
  { intros obs v j Hj. rewrite nth_error_firstn in Hj.
    destruct (j <? 999 * k)%nat eqn:Ej; [| discriminate].
    apply Nat.ltb_lt in Ej. auto. }
  split; [| split].
  - rewrite Ey. apply Forall_forall. intros v Hv.
    apply In_nth_error in Hv as [j Hj].
    apply (Hrow M) in Hj as [Hjk Hj].
    destruct (final_rows exp p g g' st j Hm ltac:(lia))
      as [sj [gj [s [Ej [_ [Rj _]]]]]].
    rewrite nth_error_map, Rj in Hj. cbn [option_map snd] in Hj.
    injection Hj as <-.
    pose proof (run_prefix_lattice exp p _ _ _ _ ltac:(lia) Ej) as Hok.
    destruct (observables_unit_range (N p) _ Hok ltac:(lia)) as [Hr _].
    destruct (magnetization (spins sj)); simpl in *; try contradiction.
    split; lra.
  - intros Hev. rewrite Eys. apply Forall_forall. intros v Hv.
    apply In_nth_error in Hv as [j Hj].
    apply (Hrow MS) in Hj as [Hjk Hj].
    destruct (final_rows exp p g g' st j Hm ltac:(lia))
      as [sj [gj [s [Ej [Es [_ Rj]]]]]].
    rewrite nth_error_map, Rj in Hj. cbn [option_map snd] in Hj.
    injection Hj as <-.
    pose proof (run_prefix_lattice exp p _ _ _ _ ltac:(lia) Ej) as Hok.
    destruct (observables_unit_range (N p) _ Hok ltac:(lia)) as [_ Hr].
    destruct (Hr Hev) as [s' [Es' Hrange]].
    rewrite Es in Es'. injection Es' as <-.
    destruct s; simpl in *; try contradiction.
    split; lra.
  - intros a b Ha Hb. rewrite Eim.
    pose proof (run_prefix_lattice exp p _ _ _ _ ltac:(lia) Ek) as Hok.
    destruct (is_spin_cases _ (cell_is_spin _ _ _ _ Hok Ha Hb)) as [-> | ->];
      split; discriminate.
Qed.

End Frames.

(** ** The energy change *)

Lemma sum_upto_plus (m : nat) (f h : nat -> Z) :
  sum_upto m (fun k => f k + h k) = sum_upto m f + sum_upto m h.
Proof. induction m as [|m IH]; cbn [sum_upto]; lia. Qed.

Lemma sum_upto_scale (m : nat) (c : Z) (f : nat -> Z) :
  sum_upto m (fun k => c * f k) = c * sum_upto m f.
Proof. induction m as [|m IH]; cbn [sum_upto]; lia. Qed.

Lemma sum_upto_zero (m : nat) : sum_upto m (fun _ => 0) = 0.
Proof. induction m as [|m IH]; cbn [sum_upto]; lia. Qed.

Lemma cell_sum_ext (n : nat) (F H : Z -> Z -> Z) :
  (forall a b, 0 <= a < Z.of_nat n -> 0 <= b < Z.of_nat n -> F a b = H a b) ->
  cell_sum n F = cell_sum n H.
Proof.
  intros E. unfold cell_sum. apply sum_upto_ext. intros a Ha.
  apply sum_upto_ext. intros b Hb. apply E; lia.
Qed.

Lemma cell_sum_plus (n : nat) (F H : Z -> Z -> Z) :
  cell_sum n (fun a b => F a b + H a b) = cell_sum n F + cell_sum n H.
Proof.
  unfold cell_sum. rewrite <- sum_upto_plus. apply sum_upto_ext.
  intros a _. apply sum_upto_plus.
Qed.

Lemma cell_sum_scale (n : nat) (c : Z) (F : Z -> Z -> Z) :
  cell_sum n (fun a b => c * F a b) = c * cell_sum n F.
Proof.
  unfold cell_sum. rewrite <- sum_upto_scale. apply sum_upto_ext.
  intros a _. apply sum_upto_scale.
Qed.

(** A sum that is concentrated on one cell. *)
Lemma cell_sum_at (n : nat) (i j : Z) (F : Z -> Z -> Z) :
  0 <= i < Z.of_nat n -> 0 <= j < Z.of_nat n ->
  cell_sum n (fun a b => if (a =? i) && (b =? j) then F a b else 0) = F i j.
Proof.
  intros Hi Hj. unfold cell_sum.
  rewrite (sum_upto_update n (Z.to_nat i) (fun _ => 0)); [| lia |].
  - rewrite sum_upto_zero.
    rewrite (sum_upto_update n (Z.to_nat j) (fun _ => 0)); [| lia |].
    + rewrite sum_upto_zero, !Z2Nat.id, !Z.eqb_refl by lia. cbn [andb]. lia.
    + intros b Hb Hne. replace (Z.of_nat b =? j) with false by lia.
      now rewrite andb_false_r.
  - intros a Ha Hne.
    rewrite (sum_upto_ext n _ (fun _ => 0)); [apply sum_upto_zero |].
    intros b Hb. now replace (Z.of_nat a =? i) with false by lia.
Qed.

Lemma pred_mod_zero (n : Z) : 0 < n -> (0 - 1) mod n = n - 1.
Proof.
  intros Hn. symmetry. apply (Z.mod_unique _ _ (-1)); lia.
Qed.

Lemma shift_up_inverse (n a i : Z) :
  0 <= a < n -> 0 <= i < n -> ((a + 1) mod n =? i) = (a =? (i - 1) mod n).
Proof.
  intros Ha Hi.
  destruct (Z.eq_dec (a + 1) n) as [E|E], (Z.eq_dec i 0) as [E'|E'].
  - subst i. rewrite E, Z.mod_same, pred_mod_zero by lia. lia.
  - rewrite E, Z.mod_same by lia. rewrite (Z.mod_small (i - 1)) by lia. lia.
  - subst i. rewrite Z.mod_small, pred_mod_zero by lia. lia.
  - rewrite !Z.mod_small by lia. lia.
Qed.

Lemma shift_down_inverse (n a i : Z) :
  0 <= a < n -> 0 <= i < n -> ((a - 1) mod n =? i) = (a =? (i + 1) mod n).
Proof.
  intros Ha Hi.
  destruct (Z.eq_dec a 0) as [E|E], (Z.eq_dec (i + 1) n) as [E'|E'].
  - subst a. rewrite E', Z.mod_same, pred_mod_zero by lia. lia.
  - subst a. rewrite pred_mod_zero by lia.
    rewrite (Z.mod_small (i + 1)) by lia. lia.
  - rewrite E', Z.mod_same by lia. rewrite Z.mod_small by lia. lia.
  - rewrite !Z.mod_small by lia. lia.
Qed.

Lemma shift_moves (n i : Z) :
  2 <= n -> 0 <= i < n -> (i + 1) mod n <> i /\ (i - 1) mod n <> i.
Proof.
  intros Hn Hi. split.
  - destruct (Z.eq_dec (i + 1) n) as [E|E].
    + rewrite E, Z.mod_same by lia. lia.
    + rewrite Z.mod_small by lia. lia.
  - destruct (Z.eq_dec i 0) as [E|E].
    + subst i. rewrite pred_mod_zero by lia. lia.
    + rewrite Z.mod_small by lia. lia.
Qed.

(** The sum over the bonds after a flip. *)
Lemma bond_sum_flipped (n : Z) (S S' : lattice) (i j : Z) :
  2 <= n -> lattice_ok n S = true -> flipped_at S S' n i j ->
  0 <= i < n -> 0 <= j < n ->
  bond_sum n S' = bond_sum n S - 4 * cell S i j * neighbour_sum n S i j.
Proof.
  intros Hn Hok [_ Hcells] Hi Hj.
  set (s := cell S i j).
  assert (B1 : 0 <= (i + 1) mod n < n) by (apply Z.mod_pos_bound; lia).
  assert (B2 : 0 <= (i - 1) mod n < n) by (apply Z.mod_pos_bound; lia).
  assert (B3 : 0 <= (j + 1) mod n < n) by (apply Z.mod_pos_bound; lia).
  assert (B4 : 0 <= (j - 1) mod n < n) by (apply Z.mod_pos_bound; lia).
  change (bond_sum n S')
    with (cell_sum (Z.to_nat n) (fun a b => cell S' a b * neighbour_sum n S' a b)).
  change (bond_sum n S)
    with (cell_sum (Z.to_nat n) (fun a b => cell S a b * neighbour_sum n S a b)).
  rewrite (cell_sum_ext _ _ (fun a b =>
    cell S a b * neighbour_sum n S a b
    + (-2 * s)
      * ((if (a =? i) && (b =? j) then neighbour_sum n S a b else 0)
         + ((if (a =? (i - 1) mod n) && (b =? j) then cell S a b else 0)
            + ((if (a =? (i + 1) mod n) && (b =? j) then cell S a b else 0)
               + ((if (a =? i) && (b =? (j - 1) mod n) then cell S a b else 0)
                  + (if (a =? i) && (b =? (j + 1) mod n) then cell S a b else 0))))))).
  - rewrite cell_sum_plus, cell_sum_scale, !cell_sum_plus.
    rewrite !cell_sum_at by lia.
    unfold neighbour_sum. lia.
  - intros a b Ha Hb. rewrite Z2Nat.id in Ha, Hb by lia.
    assert (A1 : 0 <= (a + 1) mod n < n) by (apply Z.mod_pos_bound; lia).
    assert (A2 : 0 <= (a - 1) mod n < n) by (apply Z.mod_pos_bound; lia).
    assert (A3 : 0 <= (b + 1) mod n < n) by (apply Z.mod_pos_bound; lia).
    assert (A4 : 0 <= (b - 1) mod n < n) by (apply Z.mod_pos_bound; lia).
    destruct (shift_moves n i Hn Hi) as [Mi1 Mi2].
    destruct (shift_moves n j Hn Hj) as [Mj1 Mj2].
    unfold neighbour_sum. rewrite !Hcells by assumption.
    rewrite (shift_up_inverse n a i), (shift_down_inverse n a i),
            (shift_up_inverse n b j), (shift_down_inverse n b j) by assumption.
    destruct (Z.eqb_spec a i) as [Eai|Nai];
    destruct (Z.eqb_spec b j) as [Ebj|Nbj];
    destruct (Z.eqb_spec a ((i - 1) mod n)) as [Ea1|Na1];
    destruct (Z.eqb_spec a ((i + 1) mod n)) as [Ea2|Na2];
    destruct (Z.eqb_spec b ((j - 1) mod n)) as [Eb1|Nb1];
    destruct (Z.eqb_spec b ((j + 1) mod n)) as [Eb2|Nb2];
    cbn [andb]; try lia;
    repeat match goal with
    | E : a = (i - 1) mod n |- _ =>
        replace ((a + 1) mod n) with i
          by (symmetry; apply Z.eqb_eq; rewrite shift_up_inverse by assumption;
              now apply Z.eqb_eq);
        clear E
    | E : a = (i + 1) mod n |- _ =>
        replace ((a - 1) mod n) with i
          by (symmetry; apply Z.eqb_eq; rewrite shift_down_inverse by assumption;
              now apply Z.eqb_eq);
        clear E
    | E : b = (j - 1) mod n |- _ =>
        replace ((b + 1) mod n) with j
          by (symmetry; apply Z.eqb_eq; rewrite shift_up_inverse by assumption;
              now apply Z.eqb_eq);
        clear E
    | E : b = (j + 1) mod n |- _ =>
        replace ((b - 1) mod n) with j
          by (symmetry; apply Z.eqb_eq; rewrite shift_down_inverse by assumption;
              now apply Z.eqb_eq);
        clear E
    end;
    subst; fold s; ring.
Qed.

Lemma energy_change (p : params) (S S' : lattice) (i j : Z) :
  2 <= N p -> lattice_ok (N p) S = true -> flipped_at S S' (N p) i j ->
  0 <= i < N p -> 0 <= j < N p ->
  returns (deltaE p S i j)
    (fun d => (d == hamiltonian p S' - hamiltonian p S)%Q).
Proof.
  intros Hn Hok Hfl Hi Hj. eexists. split.
  - apply deltaE_value; auto using lattice_ok_square, lattice_ok_cells.
  - unfold hamiltonian, local_field.
    rewrite (bond_sum_flipped (N p) S S' i j) by assumption.
    rewrite (spin_sum_flipped (N p) S S' i j) by assumption.
    unfold Z.sub.
    rewrite !inject_Z_plus, !inject_Z_opp, !inject_Z_mult.
    change (inject_Z (-2)) with (-2)%Q. change (inject_Z 4) with 4%Q.
    change (inject_Z 2) with 2%Q. ring.
Qed.

(** X17: for N >= 2 the sign of [deltaE] at (i, j) is the sign of the
    change H(S') - H(S) of the Hamiltonian when the spin at (i, j) is
    flipped: [deltaE] is negative, zero or positive exactly when the flip
    lowers, keeps or raises the energy. *)
Theorem deltaE_sign_is_energy_change_sign (p : params) (S S' : lattice) (i j : Z) :
  2 <= N p -> lattice_ok (N p) S = true -> flipped_at S S' (N p) i j ->
  0 <= i < N p -> 0 <= j < N p ->
  returns (deltaE p S i j)
    (fun d => ((d < 0)%Q <-> (hamiltonian p S' < hamiltonian p S)%Q)
              /\ ((d == 0)%Q <-> (hamiltonian p S' == hamiltonian p S)%Q)
              /\ ((0 < d)%Q <-> (hamiltonian p S < hamiltonian p S')%Q)).
Proof.
  intros Hn Hok Hfl Hi Hj.
  destruct (energy_change p S S' i j Hn Hok Hfl Hi Hj) as [d [Ed Hd]].
  exists d. split; [assumption |].
  repeat split; intros H; lra.
Qed.

Section Descent.

Context {G : Type} {RS : RandomState G}.
Variable exp : Q -> Q.

(** X18: with kBT = 0 a flip attempt never raises the energy: the
    Hamiltonian of the lattice it leaves is at most that of the lattice it
    found, and strictly smaller when a spin was flipped. *)
Theorem zero_temperature_descent (p : params) (S S' : lattice) (g g' : G) :
  2 <= N p -> lattice_ok (N p) S = true -> (kBT p == 0)%Q ->
  metropolis exp p S g = Ok (S', g') ->
  (hamiltonian p S' <= hamiltonian p S)%Q
  /\ (S' <> S -> (hamiltonian p S' < hamiltonian p S)%Q).
Proof.
  intros Hn Hok Hk H.
  destruct (metropolis_frozen exp p S g ltac:(lia) Hok Hk)
    as [dE [Ed [Hdown Hup]]].
  destruct (np_randint2_pos (N p) g ltac:(lia)) as [_ [Hi Hj]].
  destruct (Qlt_le_dec dE 0) as [Hlt | Hge].
  - destruct (Hdown Hlt) as [S1 [E1 Hfl]].
    rewrite H in E1. injection E1 as <- _.
    destruct (energy_change p S S' _ _ Hn Hok Hfl Hi Hj) as [d [Ed' Hd]].
    rewrite Ed in Ed'. injection Ed' as <-.
    split; [| intros _]; lra.
  - rewrite (Hup Hge) in H. injection H as <- _.
    split; [apply Qle_refl | congruence].
Qed.

End Descent.

Lemma deltaE_sign_is_energy_change_sign_witness :
  returns (deltaE sample_params ones2 1 0)
    (fun d => ((d < 0)%Q <-> (hamiltonian sample_params ones2_flipped
                              < hamiltonian sample_params ones2)%Q)
              /\ ((d == 0)%Q <-> (hamiltonian sample_params ones2_flipped
                                  == hamiltonian sample_params ones2)%Q)
              /\ ((0 < d)%Q <-> (hamiltonian sample_params ones2
                                 < hamiltonian sample_params ones2_flipped)%Q)).
Proof.
  apply (deltaE_sign_is_energy_change_sign sample_params ones2 ones2_flipped 1 0);
    [simpl; lia | reflexivity | | simpl; lia | simpl; lia].
  split; [reflexivity |]. simpl. intros a b Ha Hb.
  assert (a = 0 \/ a = 1) as [-> | ->] by lia;
    (assert (b = 0 \/ b = 1) as [-> | ->] by lia); reflexivity.
Defined.

(** ** The further properties on concrete runs *)

Lemma empty_lattice_fails_in_loop_witness :
  init empty_params 7 =
    Ok ({| spins := [];
           M := list_set (repeat (Finite 0, Finite 0) (Z.to_nat (Steps empty_params))) 0
                  (Finite 0, NaN);
           MS := list_set (repeat (Finite 0, Finite 0) (Z.to_nat (Steps empty_params))) 0
                   (Finite 0, NaN) |}, 7)
  /\ main sample_exp empty_params 7 = Raise ValueError.
Proof.
  apply (empty_lattice_fails_in_loop sample_exp empty_params 7);
    [reflexivity | simpl; lia].
Defined.

Lemma init_errors_witness :
  (Steps odd_params < 0 -> init odd_params 7 = Raise ValueError)
  /\ (Z.odd (N odd_params) = true -> 3 <= N odd_params -> 1 <= Steps odd_params ->
      init odd_params 7 = Raise ValueError).
Proof.
  apply (init_errors odd_params 7). simpl; lia.
Defined.

Lemma history_of_observables_witness :
  exists sk gk s,
    run_prefix sample_exp sample_params 2 7 = Ok (sk, gk)
    /\ staggered (spins sk) = Ok s
    /\ nth_error (M (fst (state_after sample_exp sample_params 3 7))) 1
       = Some (Finite (inject_Z (Z.of_nat 1)), magnetization (spins sk))
    /\ nth_error (MS (fst (state_after sample_exp sample_params 3 7))) 1
       = Some (Finite (inject_Z (Z.of_nat 1)), s).
Proof.
  apply (history_of_observables sample_exp sample_params 7
           (snd (state_after sample_exp sample_params 3 7)));
    [vm_compute; reflexivity | simpl; lia].
Defined.

Lemma total_spin_increments_witness :
  exists sk gk sk' gk',
    run_prefix sample_exp params4 1 11 = Ok (sk, gk)
    /\ run_prefix sample_exp params4 2 11 = Ok (sk', gk')
    /\ nth_error (M (fst (state_after sample_exp params4 5 11))) 0
       = Some (Finite (inject_Z (Z.of_nat 0)), magnetization (spins sk))
    /\ nth_error (M (fst (state_after sample_exp params4 5 11))) 1
       = Some (Finite (inject_Z (Z.of_nat 1)), magnetization (spins sk'))
    /\ (sum (flatten (spins sk')) = sum (flatten (spins sk))
        \/ sum (flatten (spins sk')) = sum (flatten (spins sk)) + 2
        \/ sum (flatten (spins sk')) = sum (flatten (spins sk)) - 2).
Proof.
  apply (total_spin_increments sample_exp params4 11
           (snd (state_after sample_exp params4 5 11)));
    [vm_compute; reflexivity | simpl; lia].
Defined.

Lemma frame_contents_witness :
  let r := plot_outcome (main_plot sample_exp params_two_frames 7) 7 in
  let f := nth 1 (snd r) (live_plot [] [] []) in
  999 * Z.of_nat 1 < Steps params_two_frames
  /\ (exists sk gk,
        run_prefix sample_exp params_two_frames (Datatypes.S (999 * 1)) 7 = Ok (sk, gk)
        /\ image f = spins sk)
  /\ m_x f = step_indices (999 * 1) /\ ms_x f = step_indices (999 * 1)
  /\ m_y f = firstn (999 * 1) (map snd (M (fst (fst r))))
  /\ ms_y f = firstn (999 * 1) (map snd (MS (fst (fst r)))).
Proof.
  apply (frame_contents sample_exp params_two_frames 7
           (snd (fst (plot_outcome (main_plot sample_exp params_two_frames 7) 7)))
           (fst (fst (plot_outcome (main_plot sample_exp params_two_frames 7) 7)))
           (snd (plot_outcome (main_plot sample_exp params_two_frames 7) 7)) 1);
    vm_compute; reflexivity.
Defined.

Lemma frames_within_limits_witness :
  let r := plot_outcome (main_plot sample_exp params_two_frames 7) 7 in
  let f := nth 1 (snd r) (live_plot [] [] []) in
  Forall (is_number_in (fst (y_limits f)) (snd (y_limits f))) (m_y f)
  /\ (Z.even (N params_two_frames) = true ->
      Forall (is_number_in (fst (y_limits f)) (snd (y_limits f))) (ms_y f))
  /\ (forall a b, 0 <= a < N params_two_frames -> 0 <= b < N params_two_frames ->
        (fst (colour_range f) <= inject_Z (cell (image f) a b))%Q
        /\ (inject_Z (cell (image f) a b) <= snd (colour_range f))%Q).
Proof.
  apply (frames_within_limits sample_exp params_two_frames 7
           (snd (fst (plot_outcome (main_plot sample_exp params_two_frames 7) 7)))
           (fst (fst (plot_outcome (main_plot sample_exp params_two_frames 7) 7)))
           (snd (plot_outcome (main_plot sample_exp params_two_frames 7) 7)));
    [vm_compute; reflexivity |].
  apply (nth_error_In _ 1). vm_compute. reflexivity.
Defined.

Lemma zero_temperature_descent_witness :
  let S' := fst (attempt_outcome (metropolis sample_exp cold_params4 lattice4 5)
                   lattice4 5) in
  (hamiltonian cold_params4 S' <= hamiltonian cold_params4 lattice4)%Q
  /\ (S' <> lattice4 ->
      (hamiltonian cold_params4 S' < hamiltonian cold_params4 lattice4)%Q).
Proof.
  apply (zero_temperature_descent sample_exp cold_params4 lattice4 _ 5
           (snd (attempt_outcome (metropolis sample_exp cold_params4 lattice4 5)
                   lattice4 5)));
    [simpl; lia | reflexivity | reflexivity | vm_compute; reflexivity].
Defined.

(** ** The random numbers behind the initial lattice *)

Section InitialDraws.

Context {G : Type} {RS : RandomState G}.

Lemma draws_succ (k : nat) (g : G) :
  draws (Datatypes.S k) g = draws k (snd (random g)).
Proof.
  unfold draws. apply Nat.iter_succ_r.
Qed.

Lemma draws_plus (a b : nat) (g : G) :
  draws (a + b) g = draws b (draws a g).
Proof.
  revert g. induction a as [|a IH]; intros g; [reflexivity |].
  cbn [Nat.add]. rewrite !draws_succ. apply IH.
Qed.

Lemma random_row_draws (n : nat) (g : G) :
  snd (random_row n g) = draws n g
  /\ forall b, (b < n)%nat ->
       nth b (fst (random_row n g)) 0%Q = fst (random (draws b g)).
Proof.
  revert g. induction n as [|n IH]; intros g.
  - split; [reflexivity | intros b Hb; lia].
  - cbn [random_row]. rewrite draws_succ.
    destruct (random g) as [u g1] eqn:Eg. specialize (IH g1).
    destruct (random_row n g1) as [us g2]. cbn [fst snd] in *.
    destruct IH as [IH1 IH2]. split; [assumption |].
    intros [|b] Hb; cbn [nth].
    + change (draws 0 g) with g. now rewrite Eg.
    + rewrite draws_succ, Eg. cbn [snd]. apply IH2. lia.
Qed.

Lemma random_rows_draws (r c : nat) (g : G) :
  snd (random_rows r c g) = draws (r * c) g
  /\ forall a, (a < r)%nat ->
       nth a (fst (random_rows r c g)) [] = fst (random_row c (draws (a * c) g)).
Proof.
  revert g. induction r as [|r IH]; intros g.
  - split; [reflexivity | intros a Ha; lia].
  - cbn [random_rows Nat.mul].
    pose proof (random_row_draws c g) as [Hrow _].
    destruct (random_row c g) as [row g1] eqn:Eg. cbn [snd] in Hrow.
    specialize (IH g1). destruct (random_rows r c g1) as [rows g2].
    cbn [fst snd] in *. destruct IH as [IH1 IH2].
    rewrite draws_plus, <- Hrow. split; [assumption |].
    intros [|a] Ha; cbn [nth Nat.mul].
    + change (draws 0 g) with g. now rewrite Eg.
    + rewrite draws_plus, <- Hrow. apply IH2. lia.
Qed.

(** X19: the initialisation consumes exactly N * N numbers of
    [numpy.random.random()], in row-major order: the spin at (a, b) is +1
    when the draw number a N + b is above 0.5 and -1 otherwise (a draw of
    exactly 0.5 gives -1). *)
Theorem initial_lattice_draws (p : params) (g g' : G) (st : state) :
  init p g = Ok (st, g') ->
  g' = draws (Z.to_nat (N p * N p)) g
  /\ forall a b, 0 <= a < N p -> 0 <= b < N p ->
       cell (spins st) a b =
       if Qltb (1 # 2) (fst (random (draws (Z.to_nat (a * N p + b)) g)))
       then 1 else -1.
Proof.
  unfold init. intros H.
  apply bind_ok in H as [[a0 g1] [Ea H]].
  apply bind_ok in H as [m [_ H]].
  apply bind_ok in H as [ms [_ H]].
  apply bind_ok in H as [m' [_ H]].
  apply bind_ok in H as [s [_ H]].
  apply bind_ok in H as [ms' [_ H]].
  injection H as <- <-. cbn [spins].
  unfold np_random2 in Ea.
  destruct ((N p <? 0) || (N p <? 0)) eqn:En; [discriminate |].
  assert (Hn : 0 <= N p) by lia.
  pose proof (random_rows_draws (Z.to_nat (N p)) (Z.to_nat (N p)) g) as [Hg Hrows].
  pose proof (random_rows_shape (Z.to_nat (N p)) (Z.to_nat (N p)) g) as [Hlen Hshape].
  destruct (random_rows (Z.to_nat (N p)) (Z.to_nat (N p)) g) as [rows g2].
  injection Ea as <- <-. cbn [fst snd] in *.
  split.
  - rewrite Hg. f_equal. nia.
  - intros a b Ha Hb. unfold cell, where_gt_half.
    rewrite forallb_forall in Hshape.
    assert (Hrow : length (nth (Z.to_nat a) rows []) = Z.to_nat (N p)).
    { apply Nat.eqb_eq, Hshape, nth_In. lia. }
    rewrite (nth_indep _ [] (map (fun u => if Qltb (1 # 2) u then 1 else -1) []))
      by (rewrite length_map; lia).
    rewrite map_nth.
    rewrite (nth_indep _ 0 ((fun u => if Qltb (1 # 2) u then 1 else -1) 0%Q))
      by (rewrite length_map; lia).
    rewrite (map_nth (fun u => if Qltb (1 # 2) u then 1 else -1)).
    rewrite Hrows by lia.
    pose proof (random_row_draws (Z.to_nat (N p))
                  (draws (Z.to_nat a * Z.to_nat (N p)) g)) as [_ Hcol].
    rewrite Hcol by lia. rewrite <- draws_plus.
    replace (Z.to_nat a * Z.to_nat (N p) + Z.to_nat b)%nat
      with (Z.to_nat (a * N p + b)) by nia.
    reflexivity.
Qed.

End InitialDraws.

Lemma initial_lattice_draws_witness :
  snd (state_after_init sample_params 7)
  = draws (Z.to_nat (N sample_params * N sample_params)) 7
  /\ forall a b, 0 <= a < N sample_params -> 0 <= b < N sample_params ->
       cell (spins (fst (state_after_init sample_params 7))) a b =
       if Qltb (1 # 2)
            (fst (random (draws (Z.to_nat (a * N sample_params + b)) 7)))
       then 1 else -1.
Proof.
  apply (initial_lattice_draws sample_params 7). vm_compute. reflexivity.
Defined.

Lemma main_succeeds_iff_witness :
  exists r, main sample_exp sample_params 7 = Ok r.
Proof.
  apply (proj2 (main_succeeds_iff sample_exp sample_params 7)).
  repeat split; simpl; lia.
Defined.

Lemma display_count_witness :
  Z.of_nat (length (snd (plot_outcome (main_plot sample_exp sample_params 7) 7)))
  = (Steps sample_params + 998) / 999.
Proof.
  apply (proj2 (display_count sample_exp sample_params 7
                  (snd (fst (plot_outcome (main_plot sample_exp sample_params 7) 7)))
                  (fst (fst (plot_outcome (main_plot sample_exp sample_params 7) 7))))).
  vm_compute. reflexivity.
Defined.

(** ** The observable arrays of a run *)

Lemma indexed_prefix (k : nat) (l : list (float * float)) :
  (forall j, (j < k)%nat ->
     exists v, nth_error l j = Some (Finite (inject_Z (Z.of_nat j)), v)) ->
  firstn k (map fst l) = step_indices k.
Proof.
  revert l. induction k as [|k IH]; intros l H; [reflexivity |].
  unfold step_indices. rewrite seq_S, map_app. cbn [map Nat.add].
  fold (step_indices k).
  destruct (H k ltac:(lia)) as [v Ev].
  assert (Hlen : (k < length (map fst l))%nat).
  { rewrite length_map. apply nth_error_Some. rewrite Ev. discriminate. }
  rewrite <- (IH l) by (intros j Hj; apply H; lia).
  rewrite <- (firstn_skipn k (map fst l)) at 1.
  rewrite firstn_app, firstn_firstn, length_firstn.
  replace (Nat.min (Datatypes.S k) k) with k by lia.
  replace (Datatypes.S k - Nat.min k (length (map fst l)))%nat with 1%nat by lia.
  f_equal.
  assert (Hk : nth_error (map fst l) k = Some (Finite (inject_Z (Z.of_nat k))))
    by (rewrite nth_error_map, Ev; reflexivity).
  rewrite <- (firstn_skipn k (map fst l)) in Hk.
  rewrite nth_error_app2 in Hk by (rewrite length_firstn; lia).
  rewrite length_firstn in Hk.
  replace (k - Nat.min k (length (map fst l)))%nat with 0%nat in Hk by lia.
  destruct (skipn k (map fst l)) as [|x t]; [discriminate |].
  cbn [nth_error] in Hk. injection Hk as ->. reflexivity.
Qed.

Section Sequences.

Context {G : Type} {RS : RandomState G}.
Variable exp : Q -> Q.

(** The arrays after the first [k] iterations of a run. *)
Lemma run_prefix_rows (p : params) (k : nat) (g g' : G) (st : state) :
  run_prefix exp p k g = Ok (st, g') ->
  Z.of_nat (length (M st)) = Steps p
  /\ Z.of_nat (length (MS st)) = Steps p
  /\ firstn k (map fst (M st)) = step_indices k
  /\ firstn k (map fst (MS st)) = step_indices k.
Proof.
  intros H. unfold run_prefix in H.
  apply bind_ok in H as [[st0 g0] [E0 H]].
  apply init_ok in E0 as [_ [Hm [Hms _]]].
  apply loop_ok in H as [_ [L1 [L2 [W _]]]]; [| lia].
  split; [lia |]. split; [lia |].
  split; apply indexed_prefix; intros j Hj; apply W; simpl; lia.
Qed.

(** C4: when the cell has run its [Steps] iterations, each of the arrays
    [M] and [MS], allocated and seeded by the initialisation, has exactly
    [Steps] rows whose step-index components are 0, 1, ..., Steps-1 in
    order; after the first k iterations the first k rows carry the indices
    0, ..., k-1; and the cell does run to its end for every Steps >= 1 on a
    lattice size that admits the staggered observable. *)
Theorem main_step_indices (p : params) (g : G) :
  (forall st g', main exp p g = Ok (st, g') ->
     Z.of_nat (length (M st)) = Steps p
     /\ Z.of_nat (length (MS st)) = Steps p
     /\ map fst (M st) = step_indices (Z.to_nat (Steps p))
     /\ map fst (MS st) = step_indices (Z.to_nat (Steps p)))
  /\ (forall k st g', run_prefix exp p k g = Ok (st, g') ->
        Z.of_nat (length (M st)) = Steps p
        /\ Z.of_nat (length (MS st)) = Steps p
        /\ firstn k (map fst (M st)) = step_indices k
        /\ firstn k (map fst (MS st)) = step_indices k)
  /\ (0 < N p -> staggered_defined (N p) = true -> 1 <= Steps p ->
      exists r, main exp p g = Ok r).
Proof.
  split; [| split].
  - intros st g' H. unfold main in H.
    destruct (run_prefix_rows p _ g g' st H) as [Hm [Hms [EM EMS]]].
    split; [assumption |]. split; [assumption |].
    split; [rewrite <- EM | rewrite <- EMS];
      symmetry; apply firstn_all2; rewrite length_map; lia.
  - intros k st g'. apply run_prefix_rows.
  - intros Hn Hdef Hs.
    destruct (init_total p g Hn Hdef Hs) as [st [g' E]].
    pose proof (init_ok _ _ _ _ E) as [Hok [Hm [Hms _]]].
    destruct (loop_total exp p (Z.to_nat (Steps p)) 0 st g') as [st' [g'' E']];
      auto; try lia.
    exists (st', g''). unfold main, run_prefix. rewrite E. exact E'.
Qed.


End Sequences.

Lemma main_step_indices_witness :
  (exists r, main sample_exp sample_params 7 = Ok r)
  /\ map fst (M (fst (state_after sample_exp sample_params 3 7)))
     = step_indices (Z.to_nat (Steps sample_params)).
Proof.
  split.
  - apply (proj2 (proj2 (main_step_indices sample_exp sample_params 7)));
      [simpl; lia | reflexivity | simpl; lia].
  - apply (proj1 (main_step_indices sample_exp sample_params 7)
             (fst (state_after sample_exp sample_params 3 7))
             (snd (state_after sample_exp sample_params 3 7))).
    vm_compute. reflexivity.
Defined.



End Neel.
